(** * tap-freshdesk: the incremental sync engine of [tap_freshdesk/__init__.py]

    A shallow embedding of the module: JSON values and Python dictionaries,
    the module-level [STATE] dictionary threaded through a small state,
    output and exception monad, the paginating generator [gen_request]
    (embedded as the fold of its consumer's loop body), the two stream syncs
    and the orchestrator [do_sync]; followed by the properties of the
    engine. *)

From Stdlib Require Import List String Ascii ZArith Bool Arith Lia.
Import ListNotations.
Open Scope string_scope.
Open Scope list_scope.

(** ** Python values *)

(** JSON documents as Python sees them after [json.loads].  Numbers are
    integers here; a [dict] keeps its insertion order, so it is an
    association list. *)
#[warnings="-register-all"]
Inductive value : Type :=
| VNone
| VBool (b : bool)
| VInt (z : Z)
| VStr (s : string)
| VList (l : list value)
| VDict (d : list (string * value)).

Definition dict : Type := list (string * value).

(** ** Exceptions and outcomes *)

Inductive exn : Type :=
| HTTPError (status_code : Z)
| KeyError (key : string)
| TypeError
| NameError (name : string)
| AttributeError (attr : string).

(** [OutOfFuel] is not a Python outcome: it marks a run of the model whose
    [while True] loop was cut by the page bound. *)
Inductive outcome (A : Type) : Type :=
| Ret (a : A)
| Raise (e : exn)
| OutOfFuel.
Arguments Ret {A} a.
Arguments Raise {A} e.
Arguments OutOfFuel {A}.

(** ** Dictionaries *)

Module Dict.

(** [d.get(k)] *)
Fixpoint get (k : string) (d : dict) : option value :=
  match d with
  | [] => None
  | (k', v) :: d' => if String.eqb k k' then Some v else get k d'
  end.

(** [k in d] *)
Definition mem (k : string) (d : dict) : bool :=
  match get k d with Some _ => true | None => false end.

(** [d.get(k, default)] *)
Definition get_default (k : string) (default : value) (d : dict) : value :=
  match get k d with Some v => v | None => default end.

(** [d[k] = v]: an existing key keeps its position, a new one goes last. *)
Fixpoint set (k : string) (v : value) (d : dict) : dict :=
  match d with
  | [] => [(k, v)]
  | (k', v') :: d' =>
      if String.eqb k k' then (k', v) :: d' else (k', v') :: set k v d'
  end.

(** [d.pop(k, None)], the popped value dropped. *)
Fixpoint pop (k : string) (d : dict) : dict :=
  match d with
  | [] => []
  | (k', v') :: d' =>
      if String.eqb k k' then pop k d' else (k', v') :: pop k d'
  end.

(** [d[k]] *)
Definition getitem (k : string) (d : dict) : outcome value :=
  match get k d with Some v => Ret v | None => Raise (KeyError k) end.

End Dict.

(** ** Comparison *)

Definition as_num (a : value) : option Z :=
  match a with
  | VBool b => Some (Z.b2z b)
  | VInt z => Some z
  | _ => None
  end.

(** [a == b] *)
Fixpoint py_eq (a b : value) {struct a} : bool :=
  match a, b with
  | VNone, VNone => true
  | VBool x, VBool y => Bool.eqb x y
  | VBool x, VInt y => Z.eqb (Z.b2z x) y
  | VInt x, VBool y => Z.eqb x (Z.b2z y)
  | VInt x, VInt y => Z.eqb x y
  | VStr x, VStr y => String.eqb x y
  | VList xs, VList ys =>
      (fix all2 (xs ys : list value) {struct xs} : bool :=
         match xs, ys with
         | [], [] => true
         | x :: xs', y :: ys' => py_eq x y && all2 xs' ys'
         | _, _ => false
         end) xs ys
  | VDict xs, VDict ys =>
      Nat.eqb (List.length xs) (List.length ys) &&
      (fix sub (xs : list (string * value)) {struct xs} : bool :=
         match xs with
         | [] => true
         | (k, v) :: xs' =>
             match Dict.get k ys with
             | Some v' => py_eq v v'
             | None => false
             end && sub xs'
         end) xs
  | _, _ => false
  end.

(** The three-way ordering behind [<], [>=] and [>]: numbers by value,
    strings by code point (the byte order of their UTF-8 form), lists
    lexicographically from their first unequal pair; everything else is
    unorderable. *)
Fixpoint py_compare (a b : value) {struct a} : outcome comparison :=
  match a, b with
  | VStr x, VStr y => Ret (String.compare x y)
  | VList xs, VList ys =>
      (fix lex (xs ys : list value) {struct xs} : outcome comparison :=
         match xs, ys with
         | [], [] => Ret Eq
         | [], _ :: _ => Ret Lt
         | _ :: _, [] => Ret Gt
         | x :: xs', y :: ys' =>
             if py_eq x y then lex xs' ys' else py_compare x y
         end) xs ys
  | _, _ =>
      match as_num a, as_num b with
      | Some x, Some y => Ret (Z.compare x y)
      | _, _ => Raise TypeError
      end
  end.

Definition map_outcome {A B} (f : A -> B) (o : outcome A) : outcome B :=
  match o with
  | Ret a => Ret (f a)
  | Raise e => Raise e
  | OutOfFuel => OutOfFuel
  end.

(** [a >= b] *)
Definition py_ge (a b : value) : outcome bool :=
  map_outcome (fun c => match c with Lt => false | _ => true end)
              (py_compare a b).

(** [a < b] *)
Definition py_lt (a b : value) : outcome bool :=
  map_outcome (fun c => match c with Lt => true | _ => false end)
              (py_compare a b).

(** [a > b] *)
Definition py_gt (a b : value) : outcome bool :=
  map_outcome (fun c => match c with Gt => true | _ => false end)
              (py_compare a b).

(** [max(a, b)]: the first argument unless the second is greater. *)
Definition py_max (a b : value) : outcome value :=
  map_outcome (fun g : bool => if g then b else a) (py_gt b a).

(** [page + 1] in [page += 1] *)
Definition py_incr (page : value) : outcome value :=
  match as_num page with
  | Some z => Ret (VInt (z + 1))
  | None => Raise TypeError
  end.

(** ** The world outside: HTTP and the singer output stream *)

(** [get_url] formats [BASE_URL] with the domain and the endpoint's template
    with the keyword arguments; the URL is kept as those three parts. *)
Record url : Type := Url {
  url_domain : value;
  url_template : string;
  url_kwargs : dict
}.

(** What the process does to the outside, in order: the logical calls of
    [request] and the messages written through [singer]. *)
Inductive event : Type :=
| HttpGet (u : url) (params : dict)
| MsgSchema (stream : string) (key_properties : list string)
| MsgRecord (stream : string) (record : dict)
| MsgState (st : dict).

(** The response [request] ends up with, once [Retry-After] directives were
    obeyed and the backoff decorator has stopped retrying. *)
Record response : Type := Response {
  status_code : Z;
  json : list dict
}.

(** The keys of [REQUIRED_CONFIG_KEYS], checked by [utils.parse_args]. *)
Record config : Type := Config {
  api_key : value;
  domain : value;
  start_date : value
}.

(** ** The monad: [STATE], output, exceptions *)

Definition M (A : Type) : Type := dict -> outcome A * dict * list event.

Definition ret {A} (a : A) : M A := fun st => (Ret a, st, []).

Definition bind {A B} (m : M A) (f : A -> M B) : M B :=
  fun st =>
    match m st with
    | (Ret a, st1, ev1) =>
        match f a st1 with (r, st2, ev2) => (r, st2, ev1 ++ ev2) end
    | (Raise e, st1, ev1) => (Raise e, st1, ev1)
    | (OutOfFuel, st1, ev1) => (OutOfFuel, st1, ev1)
    end.

Definition raise {A} (e : exn) : M A := fun st => (Raise e, st, []).

Definition out_of_fuel {A} : M A := fun st => (OutOfFuel, st, []).

Definition lift {A} (o : outcome A) : M A := fun st => (o, st, []).

Definition emit (e : event) : M unit := fun st => (Ret tt, st, [e]).

Definition read_STATE : M dict := fun st => (Ret st, st, []).

Definition modify_STATE (f : dict -> dict) : M unit :=
  fun st => (Ret tt, f st, []).

(** [try: m  except HTTPError as e: handler(e)]; other exceptions pass. *)
Definition try_except_HTTPError {A} (m : M A) (handler : Z -> M A) : M A :=
  fun st =>
    match m st with
    | (Raise (HTTPError code), st1, ev1) =>
        match handler code st1 with (r, st2, ev2) => (r, st2, ev1 ++ ev2) end
    | r => r
    end.

Declare Scope monad_scope.
Delimit Scope monad_scope with monad.
Notation "x <- m ;; k" := (bind m (fun x => k))
  (at level 61, m at next level, right associativity) : monad_scope.
Notation "m ;;; k" := (bind m (fun _ => k))
  (at level 61, right associativity) : monad_scope.
Open Scope monad_scope.

(** [for row in rows: acc = body(acc, row)], [acc] standing for the local
    variables the body assigns. *)
Fixpoint for_each {A} (rows : list dict) (body : A -> dict -> M A) (acc : A)
  : M A :=
  match rows with
  | [] => ret acc
  | row :: rows' => acc' <- body acc row ;; for_each rows' body acc'
  end.

(** ** Names *)

(** The names bound at module level. *)
Definition module_globals : list string :=
  ["collections"; "functools"; "sys"; "time"; "backoff"; "requests";
   "HTTPError"; "singer"; "utils"; "REQUIRED_CONFIG_KEYS"; "PER_PAGE";
   "BASE_URL"; "CONFIG"; "STATE"; "endpoints"; "logger"; "session";
   "get_url"; "request"; "get_start"; "gen_request"; "transform_dict";
   "sync_tickets"; "sync_time_filtered"; "Stream"; "STREAMS"; "do_sync";
   "main"].

(** The methods of a Python [list]. *)
Definition list_methods : list string :=
  ["append"; "clear"; "copy"; "count"; "extend"; "index"; "insert"; "pop";
   "remove"; "reverse"; "sort"].

Definition bound (name : string) (names : list string) : bool :=
  existsb (String.eqb name) names.

(** [name.f(...)] for a module-level [name]: the name is looked up first.
    It is written out for the calls of [write_state], where the source has
    two spellings of the name. *)
Definition via_global {A} (name : string) (call : M A) : M A :=
  if bound name module_globals then call else raise (NameError name).

(** [l.attr(...)] for a list [l]. *)
Definition via_list_method {A} (attr : string) (call : M A) : M A :=
  if bound attr list_methods then call else raise (AttributeError attr).

(** ** singer *)

(** [write_schema(stream, utils.load_schema(stream), key_properties)]; the
    schema document itself is left out of the message. *)
Definition write_schema (stream : string) (key_properties : list string)
  : M unit :=
  emit (MsgSchema stream key_properties).

Definition write_record (stream : string) (record : dict) : M unit :=
  emit (MsgRecord stream record).

(** [write_state(STATE)] serialises the dictionary as it is at the call. *)
Definition write_state : M unit :=
  st <- read_STATE ;; emit (MsgState st).

(** ** Constants *)

Definition PER_PAGE : nat := 100.

Definition endpoints : list (string * string) :=
  [("tickets", "/api/v2/tickets");
   ("sub_ticket", "/api/v2/tickets/{id}/{entity}");
   ("agents", "/api/v2/agents");
   ("roles", "/api/v2/roles");
   ("groups", "/api/v2/groups");
   ("companies", "/api/v2/companies");
   ("contacts", "/api/v2/contacts")].

Fixpoint lookup {A} (k : string) (l : list (string * A)) : option A :=
  match l with
  | [] => None
  | (k', a) :: l' => if String.eqb k k' then Some a else lookup k l'
  end.

(** The replacement fields of each endpoint template. *)
Definition template_fields (template : string) : list string :=
  if String.eqb template "/api/v2/tickets/{id}/{entity}"
  then ["id"; "entity"] else [].

(** [str.format] with keyword arguments raises on the first field without
    argument. *)
Fixpoint check_fields (fields : list string) (kwargs : dict) : outcome unit :=
  match fields with
  | [] => Ret tt
  | f :: fields' =>
      if Dict.mem f kwargs then check_fields fields' kwargs
      else Raise (KeyError f)
  end.

(** ** The module *)

Section Engine.

Variable CONFIG : config.

(** The HTTP capability: the final response to a GET of [url] with
    [params].  The rate limit, the [Retry-After] loop, the backoff and the
    request headers stay behind it, and so does a transport that ends
    without a response. *)
Variable send : url -> dict -> response.

Definition get_url (endpoint : string) (kwargs : dict) : M url :=
  match lookup endpoint endpoints with
  | None => raise (KeyError endpoint)
  | Some template =>
      lift (check_fields (template_fields template) kwargs) ;;;
      ret (Url (domain CONFIG) template kwargs)
  end.

(** [resp.raise_for_status()] *)
Definition raise_for_status (resp : response) : M unit :=
  if (400 <=? status_code resp)%Z && (status_code resp <? 600)%Z
  then raise (HTTPError (status_code resp))
  else ret tt.

Definition request (u : url) (params : dict) : M response :=
  emit (HttpGet u params) ;;;
  let resp := send u params in
  raise_for_status resp ;;;
  ret resp.

Definition get_start (entity : string) : M value :=
  st <- read_STATE ;;
  (if negb (Dict.mem entity st)
   then modify_STATE (Dict.set entity (start_date CONFIG))
   else ret tt) ;;;
  st <- read_STATE ;;
  lift (Dict.getitem entity st).

(** The [while True] loop of [gen_request], one page per unit of fuel;
    [body] is the body of the [for] loop that consumes the generator, run
    at each [yield]. *)
Fixpoint gen_request_loop {A} (fuel : nat) (u : url) (params : dict)
    (page : value) (body : A -> dict -> M A) (acc : A) : M A :=
  match fuel with
  | O => out_of_fuel
  | S fuel' =>
      let params := Dict.set "page" page params in
      resp <- request u params ;;
      let data := json resp in
      acc <- for_each data body acc ;;
      if Nat.eqb (List.length data) PER_PAGE then
        page <- lift (py_incr page) ;;
        modify_STATE (Dict.set "page" page) ;;;
        via_global "singer" write_state ;;;
        gen_request_loop fuel' u params page body acc
      else
        ret acc
  end.

(** [params or {}] *)
Definition or_empty (params : option dict) : dict :=
  match params with
  | Some d => d
  | None => []
  end.

Definition gen_request {A} (fuel : nat) (u : url) (params : option dict)
    (body : A -> dict -> M A) (acc : A) : M A :=
  let params := or_empty params in
  let params := Dict.set "per_page" (VInt (Z.of_nat PER_PAGE)) params in
  st <- read_STATE ;;
  let page := Dict.get_default "page" (VInt 1) st in
  acc <- gen_request_loop fuel u params page body acc ;;
  modify_STATE (Dict.pop "page") ;;;
  via_global "sincer" write_state ;;;
  ret acc.

(** [{key_key: k, value_key: v}] for each item of the mapping, in order;
    [d.items()] exists on a mapping only. *)
Definition transform_dict (d : value) (key_key value_key : string)
  : outcome value :=
  match d with
  | VDict items =>
      Ret (VList (map (fun kv : string * value =>
                         VDict (Dict.set value_key (snd kv)
                                  (Dict.set key_key (VStr (fst kv)) [])))
                      items))
  | _ => Raise (AttributeError "items")
  end.

(** Modelled from the spec: [utils.update_state] lives in the [utils]
    module, which is not part of this file; the spec has the watermark
    advanced to [max(W, record.updated_at)]. *)
Definition update_state (entity : string) (dt : value) : M unit :=
  st <- read_STATE ;;
  w <- lift (Dict.getitem entity st) ;;
  w' <- lift (py_max w dt) ;;
  modify_STATE (Dict.set entity w').

(** [if subrow['updated_at'] >= start: singer.write_record(stream, subrow)] *)
Definition write_if_recent (stream : string) (start : value) (subrow : dict)
  : M unit :=
  updated_at <- lift (Dict.getitem "updated_at" subrow) ;;
  recent <- lift (py_ge updated_at start) ;;
  if recent : bool then write_record stream subrow else ret tt.

(** [except HTTPError as e:] of the two optional sub-resources. *)
Definition skip_if_403 (code : Z) : M unit :=
  if (code =? 403)%Z then ret tt else raise (HTTPError code).

Definition sub_ticket_url (id : value) (entity : string) : M url :=
  get_url "sub_ticket" [("id", id); ("entity", VStr entity)].

(** The bodies of the three [for] loops over the sub-resources of a
    ticket. *)
Definition conversation_row (start : value) (_ : unit) (subrow : dict)
  : M unit :=
  let subrow := Dict.pop "attachments" subrow in
  let subrow := Dict.pop "body" subrow in
  write_if_recent "conversations" start subrow.

Definition rating_row (start : value) (_ : unit) (subrow : dict) : M unit :=
  ratings <- lift (Dict.getitem "ratings" subrow) ;;
  pairs <- lift (transform_dict ratings "question" "value") ;;
  let subrow := Dict.set "ratings" pairs subrow in
  write_if_recent "satisfaction_ratings" start subrow.

Definition time_entry_row (start : value) (_ : unit) (subrow : dict)
  : M unit :=
  write_if_recent "time_entries" start subrow.

(** The shape the three sub-resource blocks share: the log line, which
    formats [row['id']], then the loop over
    [gen_request(get_url("sub_ticket", id=row['id'], entity=entity))]. *)
Definition list_sub_resource (fuel : nat) (entity : string) (row : dict)
    (body : unit -> dict -> M unit) : M unit :=
  id <- lift (Dict.getitem "id" row) ;;
  id <- lift (Dict.getitem "id" row) ;;
  u <- sub_ticket_url id entity ;;
  gen_request fuel u None body tt.

(** The body of the [for] loop of [sync_tickets]; the local [last_updated]
    is the accumulator. *)
Definition sync_ticket (fuel : nat) (start : value) (last_updated : value)
    (row : dict) : M value :=
  id <- lift (Dict.getitem "id" row) ;;
  let row := Dict.pop "attachments" row in
  custom_fields <- lift (Dict.getitem "custom_fields" row) ;;
  fields <- lift (transform_dict custom_fields "name" "value") ;;
  let row := Dict.set "custom_fields" fields row in
  list_sub_resource fuel "conversations" row (conversation_row start) ;;;
  try_except_HTTPError
    (list_sub_resource fuel "satisfaction_ratings" row (rating_row start))
    skip_if_403 ;;;
  try_except_HTTPError
    (list_sub_resource fuel "time_entries" row (time_entry_row start))
    skip_if_403 ;;;
  updated_at <- lift (Dict.getitem "updated_at" row) ;;
  last_updated <- lift (py_max updated_at last_updated) ;;
  write_record "tickets" row ;;;
  ret last_updated.

Definition sync_tickets (fuel : nat) : M unit :=
  write_schema "tickets" ["id"] ;;;
  write_schema "conversations" ["id"] ;;;
  write_schema "satisfaction_ratings" ["id"] ;;;
  write_schema "time_entries" ["id"] ;;;
  start <- get_start "tickets" ;;
  let params := [("updated_since", start);
                 ("order_by", VStr "updated_at");
                 ("order_type", VStr "asc")] in
  let last_updated := start in
  u <- get_url "tickets" [] ;;
  last_updated <- gen_request fuel u (Some params)
                    (sync_ticket fuel start) last_updated ;;
  update_state "tickets" last_updated ;;;
  via_global "singer" write_state.

(** The body of the [for] loop of [sync_time_filtered]. *)
Definition sync_row (entity : string) (start : value) (_ : unit)
    (row : dict) : M unit :=
  updated_at <- lift (Dict.getitem "updated_at" row) ;;
  recent <- lift (py_ge updated_at start) ;;
  if recent : bool then
    row <- (if Dict.mem "custom_fields" row then
              custom_fields <- lift (Dict.getitem "custom_fields" row) ;;
              fields <- lift (transform_dict custom_fields "name" "value") ;;
              ret (Dict.set "custom_fields" fields row)
            else ret row) ;;
    updated_at <- lift (Dict.getitem "updated_at" row) ;;
    update_state entity updated_at ;;;
    via_global "singer" write_state ;;;
    write_record entity row
  else ret tt.

Definition sync_time_filtered (fuel : nat) (entity : string) : M unit :=
  write_schema entity ["id"] ;;;
  start <- get_start entity ;;
  u <- get_url entity [] ;;
  gen_request fuel u None (sync_row entity start) tt ;;;
  via_global "singer" write_state.

(** [Stream = collections.namedtuple('Stream', ['name', 'sync'])] *)
Record Stream : Type := mkStream {
  name : string;
  sync : nat -> M unit
}.

Definition STREAMS : list Stream :=
  [mkStream "tickets" sync_tickets;
   mkStream "agents" (fun fuel => sync_time_filtered fuel "agents");
   mkStream "roles" (fun fuel => sync_time_filtered fuel "roles");
   mkStream "groups" (fun fuel => sync_time_filtered fuel "groups");
   mkStream "companies" (fun fuel => sync_time_filtered fuel "companies")].

(** The body of the [for] loop of [do_sync]. *)
Definition sync_stream (fuel : nat) (s : Stream) : M unit :=
  st <- read_STATE ;;
  if negb (py_eq (Dict.get_default "active_stream" (VStr (name s)) st)
                 (VStr (name s)))
  then ret tt
  else
    modify_STATE (Dict.set "active_stream" (VStr (name s))) ;;;
    via_global "singer" write_state ;;;
    sync s fuel ;;;
    modify_STATE (Dict.pop "active_stream") ;;;
    via_global "singer" write_state.

Fixpoint for_streams (fuel : nat) (items : list Stream) : M unit :=
  match items with
  | [] => ret tt
  | s :: items' => sync_stream fuel s ;;; for_streams fuel items'
  end.

(** [for name, sync in STREAMS.items():] with [STREAMS] a list. *)
Definition do_sync (fuel : nat) : M unit :=
  items <- via_list_method "items" (ret STREAMS) ;;
  for_streams fuel items.

End Engine.


(** * Runs and what is observed of them *)

Definition outcome_of {A} (r : outcome A * dict * list event) : outcome A :=
  fst (fst r).
Definition state_of {A} (r : outcome A * dict * list event) : dict :=
  snd (fst r).
Definition events_of {A} (r : outcome A * dict * list event) : list event :=
  snd r.

(** The state a restart is given: the last [STATE] message written, or the
    state the run was started with when it wrote none. *)
Fixpoint persisted (st0 : dict) (events : list event) : dict :=
  match events with
  | [] => st0
  | MsgState st :: events' => persisted st events'
  | _ :: events' => persisted st0 events'
  end.

(** The [page] parameter of the first request of a run. *)
Fixpoint first_page_requested (events : list event) : option value :=
  match events with
  | [] => None
  | HttpGet _ params :: _ => Dict.get "page" params
  | _ :: events' => first_page_requested events'
  end.

(** The requests made to the sub-resource [entity] of some ticket. *)
Definition requests_of (entity : string) (events : list event) : list event :=
  filter (fun e =>
            match e with
            | HttpGet u _ =>
                match Dict.get "entity" (url_kwargs u) with
                | Some (VStr e') => String.eqb e' entity
                | _ => false
                end
            | _ => false
            end) events.

(** [raise_for_status] lets the response through. *)
Definition passes (resp : response) : Prop :=
  ((400 <=? status_code resp)%Z && (status_code resp <? 600)%Z) = false.

(** The parameters every page of a listing is requested with. *)
Definition page_base (params : option dict) : dict :=
  Dict.set "per_page" (VInt (Z.of_nat PER_PAGE)) (or_empty params).

(** The query [gen_request] sends for [page]. *)
Definition page_query (params : option dict) (page : value) : dict :=
  Dict.set "page" page (page_base params).

(** A listing that has [full] full pages from page [p] on and then a page
    that is not full, and its rows. *)
Fixpoint paged (send : url -> dict -> response) (u : url) (base : dict)
    (p : Z) (full : nat) : Prop :=
  let resp := send u (Dict.set "page" (VInt p) base) in
  passes resp /\
  match full with
  | O => List.length (json resp) <> PER_PAGE
  | S full' =>
      List.length (json resp) = PER_PAGE /\ paged send u base (p + 1) full'
  end.

Fixpoint listing (send : url -> dict -> response) (u : url) (base : dict)
    (p : Z) (full : nat) : list dict :=
  json (send u (Dict.set "page" (VInt p) base)) ++
  match full with
  | O => []
  | S full' => listing send u base (p + 1) full'
  end.

Fixpoint page_numbers (p : Z) (n : nat) : list value :=
  match n with
  | O => []
  | S n' => VInt p :: page_numbers (p + 1) n'
  end.

(** A consumer that writes each row it is given. *)
Definition yield_to (stream : string) (_ : unit) (row : dict) : M unit :=
  write_record stream row.

(** The records written and the pages asked for, in order. *)
Definition records_of (events : list event) : list dict :=
  flat_map (fun e => match e with MsgRecord _ r => [r] | _ => [] end) events.

Definition pages_requested (events : list event) : list value :=
  flat_map (fun e =>
              match e with
              | HttpGet _ q =>
                  match Dict.get "page" q with Some v => [v] | None => [] end
              | _ => []
              end) events.

(** The page [gen_request] starts from. *)
Definition cursor (st : dict) : value := Dict.get_default "page" (VInt 1) st.

(** The watermark [get_start] reads for [entity]. *)
Definition watermark (CONFIG : config) (entity : string) (st : dict) : value :=
  Dict.get_default entity (start_date CONFIG) st.

(** [w] is not below [start]: it is [start] itself, or [w >= start] holds. *)
Definition not_below (start w : value) : Prop :=
  w = start \/ py_ge w start = Ret true.

(** The watermark [w] covers the timestamp [u]: it is [u], or [u > w] is
    false. *)
Definition covers (w u : value) : Prop :=
  w = u \/ py_gt u w = Ret false.

(** The record passed the filter [record['updated_at'] >= start]. *)
Definition recent (start : value) (record : dict) : Prop :=
  exists u, Dict.get "updated_at" record = Some u /\ py_ge u start = Ret true.

(** The state holds a watermark for [entity] that is not below [start]. *)
Definition watermark_kept (entity : string) (start : value) (st : dict)
  : Prop :=
  exists w, Dict.get entity st = Some w /\ not_below start w.

(** The object [transform_dict] makes of one item. *)
Definition pair_object (key_key value_key : string) (item : string * value)
  : value :=
  VDict [(key_key, VStr (fst item)); (value_key, snd item)].

(** The order of [sync_time_filtered]: each record of [entity] comes right
    after a state message whose watermark covers it. *)
Definition persisted_before (entity : string) (events : list event) : Prop :=
  forall pre record post,
    events = pre ++ MsgRecord entity record :: post ->
    exists pre' st u w,
      pre = pre' ++ [MsgState st] /\
      Dict.get "updated_at" record = Some u /\
      Dict.get entity st = Some w /\ covers w u.


(** No record of [stream] among the events. *)
Definition emits_none (stream : string) (events : list event) : Prop :=
  forall record, ~ In (MsgRecord stream record) events.

(** What [sync_tickets] can write once the watermark [start] is read: the
    recent conversations, and states that keep the ticket watermark. *)
Definition tickets_event (start : value) (e : event) : Prop :=
  match e with
  | MsgRecord stream record => stream = "conversations" /\ recent start record
  | MsgState st => watermark_kept "tickets" start st
  | _ => True
  end.

(** Every record written passed the filter. *)
Definition filtered_event (start : value) (e : event) : Prop :=
  match e with
  | MsgRecord _ record => recent start record
  | _ => True
  end.

(** Every state written keeps the watermark of [entity]. *)
Definition state_event (entity : string) (start : value) (e : event) : Prop :=
  match e with
  | MsgState st => watermark_kept entity start st
  | _ => True
  end.

Definition both (T1 T2 : list event -> Prop) (events : list event) : Prop :=
  T1 events /\ T2 events.

Definition any_state (_ : dict) : Prop := True.

(** [sync_tickets] and [sync_time_filtered] from the point where the
    watermark [start] has been read. *)
Definition tickets_from (CONFIG : config) (send : url -> dict -> response)
    (fuel : nat) (start : value) : M unit :=
  let params := [("updated_since", start);
                 ("order_by", VStr "updated_at");
                 ("order_type", VStr "asc")] in
  u <- get_url CONFIG "tickets" [] ;;
  last_updated <- gen_request send fuel u (Some params)
                    (sync_ticket CONFIG send fuel start) start ;;
  update_state "tickets" last_updated ;;;
  via_global "singer" write_state.

Definition time_filtered_from (CONFIG : config)
    (send : url -> dict -> response) (fuel : nat) (entity : string)
    (start : value) : M unit :=
  u <- get_url CONFIG entity [] ;;
  gen_request send fuel u None (sync_row entity start) tt ;;;
  via_global "singer" write_state.

(** The state [get_start] leaves. *)
Definition started (CONFIG : config) (entity : string) (st : dict) : dict :=
  if Dict.mem entity st then st
  else Dict.set entity (start_date CONFIG) st.

(** ** The program logic

    [maintains I T m Q]: from a state satisfying the invariant [I], the run
    of [m] ends in a state satisfying [I], its events satisfy [T], and a
    value it returns satisfies [Q].  [T] is a property of event sequences
    that is closed under concatenation. *)

Class Compositional (T : list event -> Prop) : Prop := {
  comp_nil : T [];
  comp_app : forall a b, T a -> T b -> T (a ++ b)
}.

Definition maintains (I : dict -> Prop) (T : list event -> Prop) {A}
    (m : M A) (Q : A -> Prop) : Prop :=
  forall st, I st ->
    I (state_of (m st)) /\ T (events_of (m st)) /\
    forall a, outcome_of (m st) = Ret a -> Q a.

(** * Sample accounts *)

Module Sample.

Definition cfg : config :=
  Config (VStr "secret") (VStr "acme") (VStr "2020-01-01T00:00:00Z").

Definition entity_of (u : url) : string :=
  match Dict.get "entity" (url_kwargs u) with
  | Some (VStr e) => e
  | _ => ""
  end.

Definition lists (u : url) (template : string) : bool :=
  String.eqb (url_template u) template.

(** A help desk with one ticket, no conversations or time entries, and the
    surveys feature switched off. *)
Definition ticket7 : dict :=
  [("id", VInt 7);
   ("updated_at", VStr "2021-03-01T00:00:00Z");
   ("custom_fields", VDict [("a", VInt 1); ("b", VStr "x")])].

Definition helpdesk (u : url) (params : dict) : response :=
  if lists u "/api/v2/tickets" then Response 200 [ticket7]
  else if String.eqb (entity_of u) "satisfaction_ratings" then Response 403 []
  else Response 200 [].



(** Two agents, one updated after the start date and one before it. *)
Definition agent1 : dict :=
  [("id", VInt 1); ("updated_at", VStr "2021-05-01T00:00:00Z")].

Definition agent2 : dict :=
  [("id", VInt 2); ("updated_at", VStr "2019-05-01T00:00:00Z")].

Definition staff (u : url) (params : dict) : response :=
  if lists u "/api/v2/agents" then Response 200 [agent1; agent2]
  else Response 200 [].

(** A listing of companies with two full pages and one more record. *)
Definition company : dict :=
  [("id", VInt 3); ("updated_at", VStr "2021-06-01T00:00:00Z")].

Definition directory (u : url) (params : dict) : response :=
  match Dict.get "page" params with
  | Some (VInt 1) | Some (VInt 2) => Response 200 (repeat company PER_PAGE)
  | _ => Response 200 [company]
  end.

Definition companies_url : url := Url (VStr "acme") "/api/v2/companies" [].

(** A consumer that only counts the records it is given. *)
Definition count (n : nat) (_ : dict) : M nat := ret (S n).


End Sample.


(** * Further observations of the paginator *)

(** [full] full pages from page [p] on, and their rows. *)
Fixpoint full_pages (send : url -> dict -> response) (u : url) (base : dict)
    (p : Z) (full : nat) : Prop :=
  match full with
  | O => True
  | S full' =>
      let resp := send u (Dict.set "page" (VInt p) base) in
      passes resp /\ List.length (json resp) = PER_PAGE /\
      full_pages send u base (p + 1) full'
  end.

Fixpoint rows_of_pages (send : url -> dict -> response) (u : url)
    (base : dict) (p : Z) (n : nat) : list dict :=
  match n with
  | O => []
  | S n' =>
      json (send u (Dict.set "page" (VInt p) base)) ++
      rows_of_pages send u base (p + 1) n'
  end.

(** The state a listing leaves when it has moved [k] pages on from [p]. *)
Definition moved_on (p : Z) (k : nat) (st : dict) : dict :=
  match k with
  | O => st
  | S _ => Dict.set "page" (VInt (p + Z.of_nat k)) st
  end.

(** * More sample accounts *)

Module Sample2.

(** A listing whose third page is refused with 502. *)
Definition flaky (u : url) (params : dict) : response :=
  match Dict.get "page" params with
  | Some (VInt 1) | Some (VInt 2) =>
      Response 200 (repeat Sample.company PER_PAGE)
  | _ => Response 502 []
  end.

(** A listing whose every page is full. *)
Definition endless (u : url) (params : dict) : response :=
  Response 200 (repeat Sample.company PER_PAGE).


End Sample2.

(** * What a listing asks for *)

(** The query [q] is the caller's [params] with [per_page] set and some
    [page]. *)
Definition asks_as (params : option dict) (q : dict) : Prop :=
  Dict.get "per_page" q = Some (VInt (Z.of_nat PER_PAGE)) /\
  (exists page, Dict.get "page" q = Some page) /\
  forall k, k <> "page" -> k <> "per_page" ->
            Dict.get k q = Dict.get k (or_empty params).

(** A request to [u], if the event is one, asks as [params] say. *)
Definition carries (params : option dict) (u : url) (e : event) : Prop :=
  match e with
  | HttpGet u' q => u' = u -> asks_as params q
  | _ => True
  end.

(** The parameters [sync_tickets] lists the tickets with. *)
Definition tickets_params (start : value) : option dict :=
  Some [("updated_since", start);
        ("order_by", VStr "updated_at");
        ("order_type", VStr "asc")].

Definition tickets_url (CONFIG : config) : url :=
  Url (domain CONFIG) "/api/v2/tickets" [].

(** A request, if the event is one, with no parameter of the caller. *)
Definition asks_plainly (e : event) : Prop :=
  match e with
  | HttpGet _ q => asks_as None q
  | _ => True
  end.

(** * Record shaping, further *)

(** The value is not a mapping. *)
Definition not_a_mapping (d : value) : Prop :=
  match d with VDict _ => False | _ => True end.

(** A conversation record, if the event is one, has neither [attachments]
    nor [body]. *)
Definition stripped (e : event) : Prop :=
  match e with
  | MsgRecord stream record =>
      stream = "conversations" ->
      Dict.get "attachments" record = None /\ Dict.get "body" record = None
  | _ => True
  end.

Module Sample3.

(** An agent whose [custom_fields] is null. *)
Definition agent3 : dict :=
  [("id", VInt 3); ("updated_at", VStr "2021-05-03T00:00:00Z");
   ("custom_fields", VNone)].

(** A help desk whose ticket has one conversation, with a body and
    attachments. *)
Definition conversation : dict :=
  [("id", VInt 70); ("body", VStr "<div>hello</div>");
   ("updated_at", VStr "2021-03-01T10:00:00Z");
   ("attachments", VList [])].

Definition talkative (u : url) (params : dict) : response :=
  if Sample.lists u "/api/v2/tickets" then Response 200 [Sample.ticket7]
  else if String.eqb (Sample.entity_of u) "conversations"
       then Response 200 [conversation]
       else Response 200 [].

End Sample3.

(** * The loop over the streams *)

(** A state message, if the event is one, names [stream] as active. *)
Definition marked (stream : string) (e : event) : Prop :=
  match e with
  | MsgState st => Dict.get "active_stream" st = Some (VStr stream)
  | _ => True
  end.

Definition marker_is (stream : string) (st : dict) : Prop :=
  Dict.get "active_stream" st = Some (VStr stream).

(** * The transport: [request] with its decorators

    The engine above takes the final response of a GET as given.  Here is
    how [request] gets it: the body of the function, the [Retry-After]
    loop, and [backoff.on_exception] around it, against a server that
    answers the n-th request it is sent.  The decorator [utils.ratelimit],
    which is not in this file, only spaces the calls in time and is left
    out, as is the log. *)

Module Transport.

(** What [request] can raise: [HTTPError] from [raise_for_status], which
    carries the response; a [RequestException] of [session.send], which
    has none; [ValueError] from [int] or [time.sleep]. *)
Inductive failure : Type :=
| BadStatus (code : Z)
| NoResponse
| ValueError.

Inductive result (A : Type) : Type :=
| Done (a : A)
| Failed (f : failure)
| Starved.
Arguments Done {A} a.
Arguments Failed {A} f.
Arguments Starved {A}.

(** A response: its [Retry-After] header if it has one, its status, its
    JSON body. *)
Record answer : Type := Answer {
  retry_after : option string;
  status : Z;
  body : list dict
}.

Inductive reply : Type :=
| Answered (a : answer)
| Dropped.

(** What the client does, in order: a request sent, the sleep a
    [Retry-After] header asks for, the wait of [backoff] between two
    tries, whose length is drawn at random. *)
Inductive step : Type :=
| Sent (u : url) (params : dict) (user_agent : option value)
| Slept (seconds : Z)
| BackedOff.

(** A run starts at the number of requests sent so far. *)
Definition T (A : Type) : Type := nat -> result A * nat * list step.

(** [isinstance(e, requests.exceptions.RequestException)] *)
Definition is_RequestException (f : failure) : bool :=
  match f with
  | BadStatus _ | NoResponse => true
  | ValueError => false
  end.

(** [giveup=lambda e: e.response is not None and
    400 <= e.response.status_code < 500] *)
Definition giveup (f : failure) : bool :=
  match f with
  | BadStatus code => (400 <=? code)%Z && (code <? 500)%Z
  | _ => false
  end.

Definition max_tries : nat := 5.

(** [backoff.on_exception(backoff.expo, RequestException, max_tries=5,
    giveup=..., factor=2)]: the target is tried again after a wait, unless
    the exception is of another class, [giveup] holds of it, or it was the
    last try; [tries_left] tries remain after the one under way. *)
Fixpoint on_exception {A} (tries_left : nat) (target : T A) : T A :=
  fun n =>
    match target n with
    | (Failed f, n1, ev1) =>
        if is_RequestException f then
          match tries_left with
          | O => (Failed f, n1, ev1)
          | S tries_left' =>
              if giveup f then (Failed f, n1, ev1)
              else
                match on_exception tries_left' target n1 with
                | (r, n2, ev2) => (r, n2, ev1 ++ BackedOff :: ev2)
                end
          end
        else (Failed f, n1, ev1)
    | r => r
    end.

Section Client.

(** [CONFIG['user_agent']], when the key is there. *)
Variable user_agent : option value.

(** The reply to the n-th request. *)
Variable server : nat -> url -> dict -> reply.

(** The builtin [int] on a header value; [None] stands for its
    [ValueError]. *)
Variable int : string -> option Z.

(** The body of [request]; [again] is the call [request(url, params)] it
    ends with after a [Retry-After], which goes through the decorators
    once more. *)
Definition attempt (again : T answer) (u : url) (params : option dict)
  : T answer :=
  fun n =>
    let params := or_empty params in
    let sent := Sent u params user_agent in
    match server n u params with
    | Dropped => (Failed NoResponse, S n, [sent])
    | Answered resp =>
        match retry_after resp with
        | Some header =>
            match int header with
            | None => (Failed ValueError, S n, [sent])
            | Some seconds =>
                if (seconds <? 0)%Z then (Failed ValueError, S n, [sent])
                else
                  match again (S n) with
                  | (r, n', ev) => (r, n', sent :: Slept seconds :: ev)
                  end
            end
        | None =>
            if (400 <=? status resp)%Z && (status resp <? 600)%Z
            then (Failed (BadStatus (status resp)), S n, [sent])
            else (Done resp, S n, [sent])
        end
    end.

(** The decorated [request]; a unit of fuel for each [Retry-After] obeyed
    in a row. *)
Fixpoint request (fuel : nat) (u : url) (params : option dict) : T answer :=
  match fuel with
  | O => fun n => (Starved, n, [])
  | S fuel' =>
      on_exception (max_tries - 1)
        (attempt (request fuel' u (Some (or_empty params))) u params)
  end.

End Client.

(** ** What is observed of a run *)

Definition result_of {A} (r : result A * nat * list step) : result A :=
  fst (fst r).
Definition served {A} (r : result A * nat * list step) : nat := snd (fst r).
Definition steps_of {A} (r : result A * nat * list step) : list step :=
  snd r.

(** The number of requests among the steps. *)
Fixpoint sends (steps : list step) : nat :=
  match steps with
  | [] => O
  | Sent _ _ _ :: steps' => S (sends steps')
  | _ :: steps' => sends steps'
  end.

(** The reply is a failure worth another try: no response at all, or a
    5xx status without [Retry-After]. *)
Definition transient (r : reply) : option failure :=
  match r with
  | Dropped => Some NoResponse
  | Answered resp =>
      match retry_after resp with
      | Some _ => None
      | None =>
          if (500 <=? status resp)%Z && (status resp <? 600)%Z
          then Some (BadStatus (status resp))
          else None
      end
  end.

(** The reply ends the call at once: a good response, or a 4xx status,
    both without [Retry-After]. *)
Definition settles (r : reply) : option (result answer) :=
  match r with
  | Dropped => None
  | Answered resp =>
      match retry_after resp with
      | Some _ => None
      | None =>
          if (400 <=? status resp)%Z && (status resp <? 500)%Z
          then Some (Failed (BadStatus (status resp)))
          else if (500 <=? status resp)%Z && (status resp <? 600)%Z
               then None
               else Some (Done resp)
      end
  end.

(** [j] tries that fail, each followed by a wait, and one more try. *)
Fixpoint tries (sent : step) (j : nat) : list step :=
  match j with
  | O => [sent]
  | S j' => sent :: BackedOff :: tries sent j'
  end.

(** The reply asks to come back after [seconds]. *)
Definition throttles (int : string -> option Z) (r : reply) (seconds : Z)
  : Prop :=
  exists resp header,
    r = Answered resp /\ retry_after resp = Some header /\
    int header = Some seconds /\ (0 <= seconds)%Z.

(** [k] requests each followed by the sleep it was told, and one more
    request. *)
Fixpoint throttled (sent : step) (seconds : nat -> Z) (from k : nat)
  : list step :=
  match k with
  | O => [sent]
  | S k' => sent :: Slept (seconds from) :: throttled sent seconds (S from) k'
  end.

(** The step, if it is a request, is the one the call was made for. *)
Definition same_request (user_agent : option value) (u : url)
    (params : option dict) (s : step) : Prop :=
  match s with
  | Sent u' q' user_agent' =>
      u' = u /\ q' = or_empty params /\ user_agent' = user_agent
  | _ => True
  end.

(** The status is one [raise_for_status] raises for. *)
Definition is_error (code : Z) : Prop := (400 <= code < 600)%Z.

(** What every run of the client started at [n] keeps. *)
Definition orderly (user_agent : option value) (u : url)
    (params : option dict) (n : nat) (r : result answer * nat * list step)
  : Prop :=
  Forall (same_request user_agent u params) (steps_of r) /\
  served r = (n + sends (steps_of r))%nat /\
  (forall resp, result_of r = Done resp ->
                retry_after resp = None /\ ~ is_error (status resp)) /\
  (forall code, result_of r = Failed (BadStatus code) -> is_error code).

(** ** Sample servers *)

Definition plain_int (s : string) : option Z :=
  if String.eqb s "2" then Some 2%Z
  else if String.eqb s "5" then Some 5%Z
  else None.

Definition ok : answer := Answer None 200 [Sample.agent1].

(** Throttled twice, then answering. *)
Definition busy (n : nat) (u : url) (params : dict) : reply :=
  match n with
  | 0%nat => Answered (Answer (Some "5") 429 [])
  | 1%nat => Answered (Answer (Some "2") 429 [])
  | _ => Answered ok
  end.

(** Two failures, then answering. *)
Definition shaky (n : nat) (u : url) (params : dict) : reply :=
  match n with
  | 0%nat => Dropped
  | 1%nat => Answered (Answer None 502 [])
  | _ => Answered ok
  end.

(** Always 503. *)
Definition down (n : nat) (u : url) (params : dict) : reply :=
  Answered (Answer None 503 []).

(** Always 404. *)
Definition missing (n : nat) (u : url) (params : dict) : reply :=
  Answered (Answer None 404 []).

(** Throttled once, then always 500. *)
Definition sinking (n : nat) (u : url) (params : dict) : reply :=
  match n with
  | 0%nat => Answered (Answer (Some "5") 429 [])
  | _ => Answered (Answer None 500 [])
  end.

(** A [Retry-After] given as a date. *)
Definition dated (n : nat) (u : url) (params : dict) : reply :=
  Answered (Answer (Some "Wed, 21 Oct 2015 07:28:00 GMT") 503 []).

End Transport.


(** * Lemmas *)

(** ** Dictionary lemmas *)

Lemma get_set_same k v d : Dict.get k (Dict.set k v d) = Some v.
Proof.
  induction d as [|[k' v'] d IH]; simpl.
  - now rewrite String.eqb_refl.
  - destruct (String.eqb k k') eqn:E; simpl; rewrite E; auto.
Qed.

Lemma get_set_other k k' v d :
  k <> k' -> Dict.get k (Dict.set k' v d) = Dict.get k d.
Proof.
  intros Hne. induction d as [|[k2 v2] d IH]; simpl.
  - destruct (String.eqb k k') eqn:E; auto.
    apply String.eqb_eq in E. contradiction.
  - destruct (String.eqb k' k2) eqn:E; simpl.
    + apply String.eqb_eq in E. subst k2.
      destruct (String.eqb k k') eqn:E'; auto.
      apply String.eqb_eq in E'. contradiction.
    + now rewrite IH.
Qed.

Lemma get_pop_same k d : Dict.get k (Dict.pop k d) = None.
Proof.
  induction d as [|[k' v'] d IH]; simpl; auto.
  destruct (String.eqb k k') eqn:E; simpl; auto. now rewrite E.
Qed.

Lemma get_pop_other k k' d :
  k <> k' -> Dict.get k (Dict.pop k' d) = Dict.get k d.
Proof.
  intros Hne. induction d as [|[k2 v2] d IH]; simpl; auto.
  destruct (String.eqb k' k2) eqn:E; simpl.
  - apply String.eqb_eq in E. subst k2.
    destruct (String.eqb k k') eqn:E'; auto.
    apply String.eqb_eq in E'. contradiction.
  - now rewrite IH.
Qed.

Lemma pop_absent k d : Dict.get k d = None -> Dict.pop k d = d.
Proof.
  induction d as [|[k' v'] d IH]; simpl; auto.
  destruct (String.eqb k k'); [discriminate|].
  intros H. now rewrite IH.
Qed.

(** ** The rules of the program logic *)

#[export] Instance Forall_compositional (E : event -> Prop)
  : Compositional (Forall E).
Proof.
  split; [constructor | intros a b Ha Hb; apply Forall_app; now split].
Qed.

Section Logic.

Context (I : dict -> Prop) (T : list event -> Prop) `{!Compositional T}.

Lemma maintains_ret {A} (a : A) (Q : A -> Prop) :
  Q a -> maintains I T (ret a) Q.
Proof.
  intros HQ st HI. cbn. (split; [|split]); auto; try (apply comp_nil).
  intros b [= <-]. exact HQ.
Qed.

Lemma maintains_raise {A} (e : exn) (Q : A -> Prop) : maintains I T (raise e) Q.
Proof.
  intros st HI. cbn. (split; [|split]); auto; try (apply comp_nil).
  discriminate.
Qed.

Lemma maintains_out_of_fuel {A} (Q : A -> Prop) : maintains I T out_of_fuel Q.
Proof.
  intros st HI. cbn. (split; [|split]); auto; try (apply comp_nil).
  discriminate.
Qed.

Lemma maintains_lift {A} (o : outcome A) (Q : A -> Prop) :
  (forall a, o = Ret a -> Q a) -> maintains I T (lift o) Q.
Proof. intros HQ st HI. cbn. (split; [|split]); auto; try (apply comp_nil). Qed.

Lemma maintains_read (Q : dict -> Prop) :
  (forall st, I st -> Q st) -> maintains I T read_STATE Q.
Proof.
  intros HQ st HI. cbn. (split; [|split]); auto; try (apply comp_nil).
  intros a [= <-]. auto.
Qed.

Lemma maintains_modify (f : dict -> dict) :
  (forall st, I st -> I (f st)) ->
  maintains I T (modify_STATE f) (fun _ => True).
Proof. intros Hf st HI. cbn. (split; [|split]); auto; try (apply comp_nil). Qed.

Lemma maintains_emit (e : event) :
  T [e] -> maintains I T (emit e) (fun _ => True).
Proof. intros He st HI. cbn. repeat split; auto. Qed.

Lemma maintains_weaken {A} (m : M A) (Q Q' : A -> Prop) :
  maintains I T m Q -> (forall a, Q a -> Q' a) -> maintains I T m Q'.
Proof.
  intros Hm HQ st HI. destruct (Hm st HI) as (H1 & H2 & H3).
  repeat split; auto.
Qed.

Lemma maintains_bind {A B} (m : M A) (f : A -> M B) Q R :
  maintains I T m Q ->
  (forall a, Q a -> maintains I T (f a) R) ->
  maintains I T (bind m f) R.
Proof.
  intros Hm Hf st HI. specialize (Hm st HI).
  unfold bind, state_of, events_of, outcome_of in *.
  destruct (m st) as [[r st1] ev1]. simpl in Hm.
  destruct Hm as (HI1 & HT1 & HQ).
  destruct r as [a|e|]; simpl.
  - specialize (Hf a (HQ a eq_refl) st1 HI1).
    unfold state_of, events_of, outcome_of in Hf.
    destruct (f a st1) as [[r2 st2] ev2]. simpl in *.
    destruct Hf as (HI2 & HT2 & HR).
    (split; [|split]); auto; try (apply comp_app; assumption).
  - repeat split; auto. discriminate.
  - repeat split; auto. discriminate.
Qed.

(** Sequencing when nothing is known of the first value. *)
Lemma maintains_seq {A B} (m : M A) (f : A -> M B) R :
  maintains I T m (fun _ => True) ->
  (forall a, maintains I T (f a) R) ->
  maintains I T (bind m f) R.
Proof. intros Hm Hf. eapply maintains_bind; eauto. Qed.

(** What follows a computation that never returns is not run. *)
Lemma maintains_cut {A B} (m : M A) (f : A -> M B) R :
  maintains I T m (fun _ => False) ->
  maintains I T (bind m f) R.
Proof. intros Hm. eapply maintains_bind; eauto. intros _ []. Qed.

Lemma maintains_if {A} (b : bool) (m1 m2 : M A) Q :
  (b = true -> maintains I T m1 Q) -> (b = false -> maintains I T m2 Q) ->
  maintains I T (if b then m1 else m2) Q.
Proof. destruct b; auto. Qed.

Lemma maintains_try {A} (m : M A) (handler : Z -> M A) Q :
  maintains I T m Q ->
  (forall code, maintains I T (handler code) Q) ->
  maintains I T (try_except_HTTPError m handler) Q.
Proof.
  intros Hm Hh st HI. specialize (Hm st HI).
  unfold try_except_HTTPError, state_of, events_of, outcome_of in *.
  destruct (m st) as [[r st1] ev1]. simpl in Hm.
  destruct Hm as (HI1 & HT1 & HQ).
  destruct r as [a|e|]; simpl; auto.
  destruct e as [code| | | |]; simpl; auto.
  specialize (Hh code st1 HI1).
  unfold state_of, events_of, outcome_of in Hh.
  destruct (handler code st1) as [[r2 st2] ev2]. simpl in *.
  destruct Hh as (HI2 & HT2 & HR).
  (split; [|split]); auto; try (apply comp_app; assumption).
Qed.

Lemma maintains_via_global {A} (n : string) (m : M A) Q :
  maintains I T m Q -> maintains I T (via_global n m) Q.
Proof.
  intros Hm. unfold via_global.
  destruct (bound n module_globals); auto using maintains_raise.
Qed.

Lemma maintains_for_each {A} (rows : list dict) (body : A -> dict -> M A)
    (P : A -> Prop) :
  (forall acc row, P acc -> maintains I T (body acc row) P) ->
  forall acc, P acc -> maintains I T (for_each rows body acc) P.
Proof.
  intros Hbody.
  induction rows as [|row rows IH]; intros acc HP; simpl.
  - now apply maintains_ret.
  - eapply maintains_bind; [apply Hbody; exact HP | exact IH].
Qed.

End Logic.

(** [mapply rule]: apply a rule of the logic, its [Compositional] premise
  found by instance search; [mbind post]: split a [bind], with [post]
  known of the first value. *)
Tactic Notation "mapply" uconstr(rule) := (apply rule; try exact _).
Ltac mbind post := eapply maintains_bind with (Q := post); try exact _.

(** ** The rules of the engine's own operations *)

Lemma sincer_is_unbound {A} (call : M A) :
via_global "sincer" call = raise (NameError "sincer").
Proof. reflexivity. Qed.

Lemma singer_is_bound {A} (call : M A) : via_global "singer" call = call.
Proof. reflexivity. Qed.

Lemma items_is_no_list_method {A} (call : M A) :
via_list_method "items" call = raise (AttributeError "items").
Proof. reflexivity. Qed.

Section EngineLogic.

Variable CONFIG : config.
Variable send : url -> dict -> response.

Context (I : dict -> Prop) (T : list event -> Prop) `{!Compositional T}.

(** What the paginator itself does is compatible with [I] and [T]. *)
Hypothesis T_get : forall u params, T [HttpGet u params].
Hypothesis T_state : forall st, I st -> T [MsgState st].
Hypothesis I_set_page : forall st v, I st -> I (Dict.set "page" v st).
Hypothesis I_pop_page : forall st, I st -> I (Dict.pop "page" st).

Lemma maintains_write_state : maintains I T write_state (fun _ => True).
Proof.
  unfold write_state.
  mbind (fun st => T [MsgState st]).
  - mapply maintains_read; auto.
  - intros st Hst. now mapply maintains_emit.
Qed.

Lemma maintains_request u params :
  maintains I T (request send u params) (fun _ => True).
Proof.
  unfold request.
  mapply maintains_seq; [mapply maintains_emit; auto|]. intros _.
  mapply maintains_seq.
  - unfold raise_for_status.
    mapply maintains_if; intros _;
      [mapply maintains_raise | mapply maintains_ret]; auto.
  - intros _. now mapply maintains_ret.
Qed.

Lemma maintains_gen_request_loop {A} (body : A -> dict -> M A)
    (P : A -> Prop) u :
  (forall acc row, P acc -> maintains I T (body acc row) P) ->
  forall fuel params page acc, P acc ->
    maintains I T (gen_request_loop send fuel u params page body acc) P.
Proof.
  intros Hbody. induction fuel as [|fuel IH]; intros params page acc HP.
  - mapply maintains_out_of_fuel; auto.
  - simpl. mapply maintains_seq; [mapply maintains_request|]. intros resp.
    mbind P.
    { mapply maintains_for_each; assumption. }
    intros acc' HP'. mapply maintains_if; intros _.
    + mapply maintains_seq; [now mapply maintains_lift|]. intros page'.
      mapply maintains_seq; [mapply maintains_modify; auto|]. intros _.
      mapply maintains_seq.
      { mapply maintains_via_global; auto. mapply maintains_write_state. }
      intros _. now apply IH.
    + now mapply maintains_ret.
Qed.

(** The generator never finishes normally: after its last page the name
    [sincer] is looked up, and it is not bound. *)
Lemma maintains_gen_request {A} (body : A -> dict -> M A) (P : A -> Prop)
    fuel u params acc :
  (forall acc row, P acc -> maintains I T (body acc row) P) ->
  P acc ->
  maintains I T (gen_request send fuel u params body acc) (fun _ => False).
Proof.
  intros Hbody HP. unfold gen_request.
  mapply maintains_seq; [now mapply maintains_read|]. intros st.
  mapply maintains_seq.
  { apply maintains_weaken with (Q := P); auto.
    now mapply maintains_gen_request_loop. }
  intros acc'.
  mapply maintains_seq; [mapply maintains_modify; auto|]. intros _.
  rewrite sincer_is_unbound.
  mapply maintains_cut; auto. now mapply maintains_raise.
Qed.

Lemma maintains_get_url endpoint kwargs :
  maintains I T (get_url CONFIG endpoint kwargs) (fun _ => True).
Proof.
  unfold get_url. destruct (lookup endpoint endpoints).
  - mapply maintains_seq; [now mapply maintains_lift|].
    intros _. now mapply maintains_ret.
  - now mapply maintains_raise.
Qed.

End EngineLogic.

(** ** Values *)

Lemma py_max_cases a b w : py_max a b = Ret w -> w = a \/ w = b.
Proof.
  unfold py_max, py_gt.
  destruct (py_compare b a) as [c| |]; simpl; try discriminate.
  intros [= <-]. destruct c; auto.
Qed.

Lemma py_max_covers a b w : py_max a b = Ret w -> covers w b.
Proof.
  unfold py_max, py_gt, covers.
  destruct (py_compare b a) as [c| |] eqn:E; simpl; try discriminate.
  intros [= <-]. unfold py_gt.
  destruct c; simpl; auto; right; rewrite E; reflexivity.
Qed.

Lemma py_lt_not_ge a b : py_lt a b = Ret true -> py_ge a b = Ret false.
Proof.
  unfold py_lt, py_ge.
  destruct (py_compare a b) as [c| |]; simpl; try discriminate.
  destruct c; simpl; congruence.
Qed.

(** ** Runs of the helpers *)

Lemma bind_ret_run {A B} (m : M A) (f : A -> M B) st a st1 ev1 :
  m st = (Ret a, st1, ev1) ->
  bind m f st = (outcome_of (f a st1), state_of (f a st1),
                 ev1 ++ events_of (f a st1)).
Proof.
  intros H. unfold bind. rewrite H.
  destruct (f a st1) as [[r st2] ev2]. reflexivity.
Qed.


Lemma run_eta {A} (r : outcome A * dict * list event) :
  r = (outcome_of r, state_of r, events_of r).
Proof. now destruct r as [[? ?] ?]. Qed.

Lemma get_start_run CONFIG entity st :
  get_start CONFIG entity st =
  (Ret (watermark CONFIG entity st), started CONFIG entity st, []).
Proof.
  unfold get_start, started, watermark, Dict.get_default, Dict.mem,
    Dict.getitem,
    bind, read_STATE, modify_STATE, lift, ret.
  destruct (Dict.get entity st) eqn:E; simpl.
  - now rewrite E.
  - now rewrite get_set_same.
Qed.

Lemma request_run send u q :
  request send u q =
  fun st =>
    if ((400 <=? status_code (send u q))%Z
        && (status_code (send u q) <? 600)%Z)%bool
    then (Raise (HTTPError (status_code (send u q))), st, [HttpGet u q])
    else (Ret (send u q), st, [HttpGet u q]).
Proof.
  unfold request, raise_for_status, bind, emit, raise, ret.
  destruct ((400 <=? status_code (send u q))%Z
            && (status_code (send u q) <? 600)%Z)%bool; reflexivity.
Qed.

(** ** Runs of the paginator *)

Section Paginator.

Variable send : url -> dict -> response.
Context {A : Type} (body : A -> dict -> M A).

(** The generator ends in the unbound name whenever its loop is left. *)
Lemma gen_request_run fuel u params acc st :
  gen_request send fuel u params body acc st =
  let r := gen_request_loop send fuel u
             (page_base params)
             (cursor st) body acc st in
  match outcome_of r with
  | Ret _ => (Raise (NameError "sincer"), Dict.pop "page" (state_of r),
              events_of r)
  | _ => r
  end.
Proof.
  unfold gen_request, page_base, cursor, bind, read_STATE, modify_STATE.
  simpl.
  destruct (gen_request_loop _ _ _ _ _ _ _ _) as [[r st1] ev1].
  destruct r; simpl; rewrite ?app_nil_r; reflexivity.
Qed.

(** Every page starts with its request. *)
Lemma loop_first_request fuel u params page acc st :
  exists rest,
    events_of (gen_request_loop send (S fuel) u params page body acc st) =
    HttpGet u (Dict.set "page" page params) :: rest.
Proof.
  simpl. unfold bind at 1. rewrite request_run.
  destruct (_ && _)%bool; [eexists; reflexivity|].
  match goal with
  | |- context [bind ?m ?f ?s] => destruct (bind m f s) as [[r st1] ev1]
  end.
  simpl. eexists; reflexivity.
Qed.

(** A page that is not full ends the loop. *)
Lemma loop_short_page fuel u params page acc st acc' st1 ev1 :
  let q := Dict.set "page" page params in
  passes (send u q) ->
  List.length (json (send u q)) <> PER_PAGE ->
  for_each (json (send u q)) body acc st = (Ret acc', st1, ev1) ->
  gen_request_loop send (S fuel) u params page body acc st =
  (Ret acc', st1, HttpGet u q :: ev1).
Proof.
  intros q Hok Hlen Hrows. simpl. unfold bind at 1. rewrite request_run.
  fold q. unfold passes in Hok. fold q in Hok. rewrite Hok.
  erewrite bind_ret_run by exact Hrows.
  apply Nat.eqb_neq in Hlen. rewrite Hlen. simpl.
  now rewrite app_nil_r.
Qed.

(** A full page moves the cursor, persists it, and the loop goes on. *)
Lemma loop_full_page fuel u params page acc st acc' st1 ev1 page' :
  let q := Dict.set "page" page params in
  passes (send u q) ->
  List.length (json (send u q)) = PER_PAGE ->
  for_each (json (send u q)) body acc st = (Ret acc', st1, ev1) ->
  py_incr page = Ret page' ->
  let st2 := Dict.set "page" page' st1 in
  let r := gen_request_loop send fuel u q page' body acc' st2 in
  gen_request_loop send (S fuel) u params page body acc st =
  (outcome_of r, state_of r,
   HttpGet u q :: ev1 ++ MsgState st2 :: events_of r).
Proof.
  intros q Hok Hlen Hrows Hincr st2 r. simpl. unfold bind at 1.
  rewrite request_run. fold q. unfold passes in Hok. fold q in Hok.
  rewrite Hok. erewrite bind_ret_run by exact Hrows.
  rewrite Hlen, Nat.eqb_refl, Hincr.
  unfold bind, lift, modify_STATE, write_state, read_STATE, emit. simpl.
  fold st2. fold r. destruct r as [[o st3] ev3]. simpl.
  destruct o; reflexivity.
Qed.

End Paginator.

Lemma set_set_same k v v' d :
  Dict.set k v' (Dict.set k v d) = Dict.set k v' d.
Proof.
  induction d as [|[k2 v2] d IH]; simpl.
  - now rewrite String.eqb_refl.
  - destruct (String.eqb k k2) eqn:E; simpl; rewrite E; [reflexivity|].
    now rewrite IH.
Qed.

Lemma cursor_set_page page st : cursor (Dict.set "page" page st) = page.
Proof. unfold cursor, Dict.get_default. now rewrite get_set_same. Qed.

Lemma persisted_last st0 pre st : persisted st0 (pre ++ [MsgState st]) = st.
Proof.
  revert st0. induction pre as [|e pre IH]; intros st0; simpl; auto.
  destruct e; apply IH.
Qed.

Lemma gen_request_events {A} send (body : A -> dict -> M A) fuel u params
    acc st :
  events_of (gen_request send fuel u params body acc st) =
  events_of (gen_request_loop send fuel u
               (page_base params)
               (cursor st) body acc st).
Proof.
  rewrite gen_request_run. cbv zeta.
  destruct (gen_request_loop _ _ _ _ _ _ _ _) as [[r st1] ev1].
  destruct r; reflexivity.
Qed.

(** The first request of a listing asks for the page stored in [STATE]. *)
Lemma gen_request_first_page {A} send (body : A -> dict -> M A) fuel u
    params acc st :
  first_page_requested
    (events_of (gen_request send (S fuel) u params body acc st)) =
  Some (cursor st).
Proof.
  rewrite gen_request_events.
  destruct (loop_first_request send body fuel u
              (page_base params)
              (cursor st) acc st) as [rest ->].
  simpl. now rewrite get_set_same.
Qed.


Lemma py_incr_moves page page' : py_incr page = Ret page' -> page' <> page.
Proof.
  unfold py_incr. destruct page; simpl; try discriminate; intros [= <-].
  - discriminate.
  - intros [= H]. lia.
Qed.

(** * The paginator's cursor *)


(** C4, as the code has it: when a page is full, the state written after
    its records holds the number of the next page, and that page is
    requested next; interrupted between the two, the run leaves that state
    behind, and a restart from it asks for the page it holds, which is not
    the page just finished. *)
Theorem resume_requests_persisted_page {A} send (body : A -> dict -> M A)
    fuel u params acc st acc' st1 ev1 page' :
  passes (send u (page_query params (cursor st))) ->
  List.length (json (send u (page_query params (cursor st)))) = PER_PAGE ->
  for_each (json (send u (page_query params (cursor st)))) body acc st =
  (Ret acc', st1, ev1) ->
  py_incr (cursor st) = Ret page' ->
  let q := page_query params (cursor st) in
  let st2 := Dict.set "page" page' st1 in
  (exists rest,
      events_of (gen_request send (S (S fuel)) u params body acc st) =
      HttpGet u q :: ev1 ++
      MsgState st2 :: HttpGet u (page_query params page') :: rest) /\
  persisted st (HttpGet u q :: ev1 ++ [MsgState st2]) = st2 /\
  cursor st2 = page' /\
  page' <> cursor st /\
  (forall fuel' acc0,
      first_page_requested
        (events_of (gen_request send (S fuel') u params body acc0 st2)) =
      Some page').
Proof.
  intros Hok Hlen Hrows Hincr q st2.
  split; [|split; [|split; [|split]]].
  - rewrite gen_request_events.
    rewrite (loop_full_page send body (S fuel) u _ _ acc st acc' st1 ev1
               page' Hok Hlen Hrows Hincr).
    cbv zeta. unfold events_of at 1. cbn [snd].
    destruct (loop_first_request send body fuel u
                (Dict.set "page" (cursor st)
                   (page_base params))
                page' acc' (Dict.set "page" page' st1)) as [rest ->].
    rewrite set_set_same. exists rest. reflexivity.
  - change (HttpGet u q :: ev1 ++ [MsgState st2])
      with ((HttpGet u q :: ev1) ++ [MsgState st2]).
    apply persisted_last.
  - apply cursor_set_page.
  - now apply py_incr_moves.
  - intros fuel' acc0. rewrite gen_request_first_page.
    unfold st2. now rewrite cursor_set_page.
Qed.

(** ** Runs of the loop bodies *)

Lemma update_state_run entity dt st :
  update_state entity dt st =
  match Dict.get entity st with
  | None => (Raise (KeyError entity), st, [])
  | Some old =>
      match py_max old dt with
      | Ret w => (Ret tt, Dict.set entity w st, [])
      | Raise e => (Raise e, st, [])
      | OutOfFuel => (OutOfFuel, st, [])
      end
  end.
Proof.
  unfold update_state, bind, read_STATE, lift, modify_STATE, Dict.getitem.
  simpl. destruct (Dict.get entity st) as [old|]; [|reflexivity].
  destruct (py_max old dt); reflexivity.
Qed.

(** One row of a time-filtered stream: nothing is written, or the advanced
    state and then the record are. *)
Lemma sync_row_cases entity start row st :
  let r := sync_row entity start tt row st in
  (state_of r = st /\ events_of r = []) \/
  exists record u old w,
    Dict.get "updated_at" record = Some u /\
    py_ge u start = Ret true /\
    Dict.get entity st = Some old /\
    py_max old u = Ret w /\
    (Dict.mem "custom_fields" row = false -> record = row) /\
    r = (Ret tt, Dict.set entity w st,
         [MsgState (Dict.set entity w st); MsgRecord entity record]).
Proof.
  cbv zeta. unfold sync_row, bind, lift, Dict.getitem.
  destruct (Dict.get "updated_at" row) as [u|] eqn:Hu; [|left; now split].
  destruct (py_ge u start) as [[|]| |] eqn:Hge; try (left; now split).
  destruct (Dict.mem "custom_fields" row) eqn:Hm.
  - destruct (Dict.get "custom_fields" row) as [cf|]; [|left; now split].
    destruct (transform_dict cf "name" "value") as [fields| |];
      try (left; now split).
    unfold ret. rewrite get_set_other by discriminate. rewrite Hu.
    rewrite update_state_run.
    destruct (Dict.get entity st) as [old|] eqn:Hold; [|left; now split].
    destruct (py_max old u) as [w| |] eqn:Hmax; try (left; now split).
    right. exists (Dict.set "custom_fields" fields row), u, old, w.
    rewrite get_set_other by discriminate.
    repeat split; auto. discriminate.
  - unfold ret. rewrite Hu. rewrite update_state_run.
    destruct (Dict.get entity st) as [old|] eqn:Hold; [|left; now split].
    destruct (py_max old u) as [w| |] eqn:Hmax; try (left; now split).
    right. exists row, u, old, w. repeat split; auto.
Qed.

(** The filter of the sub-resources: the record is written when it is
    recent, and nothing else is done. *)
Lemma write_if_recent_cases stream start subrow st :
  let r := write_if_recent stream start subrow st in
  state_of r = st /\
  (events_of r = [] \/
   recent start subrow /\ events_of r = [MsgRecord stream subrow]).
Proof.
  cbv zeta. unfold write_if_recent, bind, lift, Dict.getitem, recent.
  destruct (Dict.get "updated_at" subrow) as [u|] eqn:Hu; [|split; auto].
  destruct (py_ge u start) as [[|]| |] eqn:Hge; split; auto.
  right. split; [exists u; auto | reflexivity].
Qed.

(** ** Runs of the streams *)

Lemma sync_tickets_run CONFIG send fuel st :
  sync_tickets CONFIG send fuel st =
  let r := tickets_from CONFIG send fuel (watermark CONFIG "tickets" st)
             (started CONFIG "tickets" st) in
  (outcome_of r, state_of r,
   [MsgSchema "tickets" ["id"]; MsgSchema "conversations" ["id"];
    MsgSchema "satisfaction_ratings" ["id"]; MsgSchema "time_entries" ["id"]]
   ++ events_of r).
Proof.
  unfold sync_tickets. unfold bind at 1 2 3 4 5. simpl.
  rewrite get_start_run. fold (tickets_from CONFIG send fuel
                                 (watermark CONFIG "tickets" st)).
  cbv zeta. destruct (tickets_from _ _ _ _ _) as [[r st1] ev1]. reflexivity.
Qed.

Lemma sync_time_filtered_run CONFIG send fuel entity st :
  sync_time_filtered CONFIG send fuel entity st =
  let r := time_filtered_from CONFIG send fuel entity
             (watermark CONFIG entity st) (started CONFIG entity st) in
  (outcome_of r, state_of r, MsgSchema entity ["id"] :: events_of r).
Proof.
  unfold sync_time_filtered. unfold bind at 1 2. simpl.
  rewrite get_start_run. fold (time_filtered_from CONFIG send fuel entity
                                 (watermark CONFIG entity st)).
  cbv zeta. destruct (time_filtered_from _ _ _ _ _ _) as [[r st1] ev1].
  reflexivity.
Qed.

(** ** The rules of the streams *)

#[export] Instance both_compositional T1 T2
  `{!Compositional T1} `{!Compositional T2} : Compositional (both T1 T2).
Proof.
  split.
  - split; apply comp_nil.
  - intros a b [Ha1 Ha2] [Hb1 Hb2]. split; now apply comp_app.
Qed.

#[export] Instance persisted_before_compositional entity
  : Compositional (persisted_before entity).
Proof.
  split.
  - intros pre record post H. now destruct pre.
  - intros a b Ha Hb pre record post H.
    destruct (app_eq_app _ _ _ _ H) as [l [[Ea Hl]|[-> Hl]]].
    + destruct l as [|e l].
      * simpl in Hl.
        destruct (Hb [] record post (eq_sym Hl))
          as (pre' & st & u & w & Hpre & _).
        now destruct pre'.
      * simpl in Hl. injection Hl as <- ->.
        apply (Ha pre record l Ea).
    + destruct (Hb l record post Hl)
        as (pre' & st & u & w & -> & Hu & Hw & Hc).
      exists (a ++ pre'), st, u, w. rewrite app_assoc. auto.
Qed.

Section StreamLogic.

Variable CONFIG : config.
Variable send : url -> dict -> response.

Context (I : dict -> Prop) (T : list event -> Prop) `{!Compositional T}.

Hypothesis T_get : forall u params, T [HttpGet u params].
Hypothesis T_state : forall st, I st -> T [MsgState st].
Hypothesis I_set_page : forall st v, I st -> I (Dict.set "page" v st).
Hypothesis I_pop_page : forall st, I st -> I (Dict.pop "page" st).

Lemma maintains_write_if_recent stream start subrow :
  (forall record, recent start record -> T [MsgRecord stream record]) ->
  maintains I T (write_if_recent stream start subrow) (fun _ => True).
Proof.
  intros HT st HI.
  destruct (write_if_recent_cases stream start subrow st)
    as [Hst [Hev|[Hrecent Hev]]]; rewrite Hst, Hev;
    (split; [|split]); auto.
  apply comp_nil.
Qed.

(** The listing of a sub-resource never returns. *)
Lemma maintains_list_sub_resource fuel entity row body :
  (forall subrow, maintains I T (body tt subrow) (fun _ => True)) ->
  maintains I T (list_sub_resource CONFIG send fuel entity row body)
            (fun _ => False).
Proof.
  intros Hbody. unfold list_sub_resource.
  do 2 (mapply maintains_seq; [now mapply maintains_lift|]; intro).
  mapply maintains_seq; [now mapply maintains_get_url|]. intros u.
  eapply maintains_gen_request with (P := fun _ => True);
    try exact _; auto.
  intros [] subrow _. apply Hbody.
Qed.

(** No ticket gets past its conversations. *)
Lemma maintains_sync_ticket fuel start last_updated row :
  (forall record, recent start record ->
                  T [MsgRecord "conversations" record]) ->
  maintains I T (sync_ticket CONFIG send fuel start last_updated row)
            (fun _ => False).
Proof.
  intros HT. unfold sync_ticket.
  do 3 (mapply maintains_seq; [now mapply maintains_lift|]; intro).
  mapply maintains_cut.
  apply maintains_list_sub_resource.
  intros subrow. now apply maintains_write_if_recent.
Qed.

Lemma maintains_tickets_from fuel start :
  (forall record, recent start record ->
                  T [MsgRecord "conversations" record]) ->
  maintains I T (tickets_from CONFIG send fuel start) (fun _ => False).
Proof.
  intros HT. unfold tickets_from.
  mapply maintains_seq; [now mapply maintains_get_url|]. intros u.
  mapply maintains_cut.
  eapply maintains_gen_request with (P := fun _ => True);
    try exact _; auto.
  intros lu row _.
  apply maintains_weaken with (Q := fun _ => False); [|tauto].
  now apply maintains_sync_ticket.
Qed.

Lemma maintains_time_filtered_from fuel entity start :
  (forall row, maintains I T (sync_row entity start tt row) (fun _ => True)) ->
  maintains I T (time_filtered_from CONFIG send fuel entity start)
            (fun _ => False).
Proof.
  intros Hrow. unfold time_filtered_from.
  mapply maintains_seq; [now mapply maintains_get_url|]. intros u.
  mapply maintains_cut.
  eapply maintains_gen_request with (P := fun _ => True);
    try exact _; auto.
  intros [] row _. apply Hrow.
Qed.

End StreamLogic.

(** ** What the streams write *)

Lemma started_watermark CONFIG entity st :
  Dict.get entity (started CONFIG entity st) =
  Some (watermark CONFIG entity st).
Proof.
  unfold started, watermark, Dict.mem, Dict.get_default.
  destruct (Dict.get entity st) eqn:E; [exact E | apply get_set_same].
Qed.

Lemma watermark_kept_started CONFIG entity st :
  watermark_kept entity (watermark CONFIG entity st)
    (started CONFIG entity st).
Proof.
  exists (watermark CONFIG entity st). split.
  - apply started_watermark.
  - now left.
Qed.

Lemma watermark_kept_set_page entity start st v :
  entity <> "page" ->
  watermark_kept entity start st ->
  watermark_kept entity start (Dict.set "page" v st).
Proof.
  intros Hne (w & Hw & Hle). exists w. now rewrite get_set_other.
Qed.

Lemma watermark_kept_pop_page entity start st :
  entity <> "page" ->
  watermark_kept entity start st ->
  watermark_kept entity start (Dict.pop "page" st).
Proof.
  intros Hne (w & Hw & Hle). exists w. now rewrite get_pop_other.
Qed.

(** [sync_tickets] never returns; it writes no ticket, only recent
    conversations, and its states keep the ticket watermark. *)
Lemma sync_tickets_writes CONFIG send fuel st :
  let start := watermark CONFIG "tickets" st in
  let r := sync_tickets CONFIG send fuel st in
  watermark_kept "tickets" start (state_of r) /\
  Forall (tickets_event start) (events_of r) /\
  outcome_of r <> Ret tt.
Proof.
  intros start r. unfold r. rewrite sync_tickets_run. cbv zeta.
  assert (Hne : "tickets" <> "page") by discriminate.
  destruct (maintains_tickets_from CONFIG send
              (watermark_kept "tickets" start)
              (Forall (tickets_event start))) with (fuel := fuel)
      (start := start) (st := started CONFIG "tickets" st)
    as (HI & HT & HQ).
  - intros u params. now repeat constructor.
  - intros st' Hst'. now repeat constructor.
  - intros st' v. now apply watermark_kept_set_page.
  - intros st'. now apply watermark_kept_pop_page.
  - intros record Hrecent. now repeat constructor.
  - apply watermark_kept_started.
  - fold start. split; [exact HI|]. split.
    + apply Forall_app. split; [now repeat constructor | exact HT].
    + unfold outcome_of at 1. simpl. intros H. exact (HQ tt H).
Qed.

Lemma persisted_before_pair entity st record u w :
  Dict.get "updated_at" record = Some u ->
  Dict.get entity st = Some w ->
  covers w u ->
  persisted_before entity [MsgState st; MsgRecord entity record].
Proof.
  intros Hu Hw Hc pre record' post H.
  destruct pre as [|e1 [|e2 pre]]; simpl in H.
  - discriminate.
  - injection H as <- <- _. exists [], st, u, w. auto.
  - injection H as _ _ H. now destruct pre.
Qed.

Lemma persisted_before_other entity e :
  (forall record, e <> MsgRecord entity record) ->
  persisted_before entity [e].
Proof.
  intros He pre record post H.
  destruct pre as [|e1 pre].
  - injection H as -> _. now elim (He record).
  - injection H as _ H. now destruct pre.
Qed.

(** [sync_time_filtered] never returns; its records passed the filter, and
    each comes right after the state that covers it. *)
Lemma sync_time_filtered_writes CONFIG send fuel entity st :
  let start := watermark CONFIG entity st in
  let r := sync_time_filtered CONFIG send fuel entity st in
  Forall (filtered_event start) (events_of r) /\
  persisted_before entity (events_of r) /\
  outcome_of r <> Ret tt.
Proof.
  intros start r. unfold r. rewrite sync_time_filtered_run. cbv zeta.
  destruct (maintains_time_filtered_from CONFIG send any_state
              (both (Forall (filtered_event start))
                    (persisted_before entity)))
    with (fuel := fuel) (entity := entity) (start := start)
         (st := started CONFIG entity st)
    as (_ & [HT1 HT2] & HQ); try exact Logic.I; try (intros; exact Logic.I).
  - intros u params. split; [now repeat constructor|].
    apply persisted_before_other. discriminate.
  - intros st' _. split; [now repeat constructor|].
    apply persisted_before_other. discriminate.
  - intros row st' _.
    destruct (sync_row_cases entity start row st')
      as [[Hst Hev]|(record & u & old & w & Hu & Hge & Hold & Hmax & _ & Hr)].
    + rewrite Hev. split; [exact Logic.I|]. split; [apply comp_nil|].
      intros a Ha. exact Logic.I.
    + cbv zeta in Hr. rewrite Hr. split; [exact Logic.I|]. split.
      * split.
        -- repeat constructor. exists u. auto.
        -- eapply persisted_before_pair; eauto using get_set_same.
           eapply py_max_covers; eauto.
      * intros a Ha. exact Logic.I.
  - fold start. split; [|split].
    + constructor; [exact Logic.I | exact HT1].
    + change (persisted_before entity
                ([MsgSchema entity ["id"]] ++
                 events_of (time_filtered_from CONFIG send fuel entity start
                              (started CONFIG entity st)))).
      apply comp_app; [|exact HT2].
      apply persisted_before_other. discriminate.
    + unfold outcome_of at 1. simpl. intros H. exact (HQ tt H).
Qed.

(** The states of [sync_time_filtered] keep the watermark not below the
    one read at its start. *)
Lemma sync_time_filtered_keeps CONFIG send fuel entity st :
  entity <> "page" ->
  let start := watermark CONFIG entity st in
  let r := sync_time_filtered CONFIG send fuel entity st in
  watermark_kept entity start (state_of r) /\
  Forall (state_event entity start) (events_of r).
Proof.
  intros Hne start r. unfold r. rewrite sync_time_filtered_run. cbv zeta.
  destruct (maintains_time_filtered_from CONFIG send
              (watermark_kept entity start)
              (Forall (state_event entity start)))
    with (fuel := fuel) (entity := entity) (start := start)
         (st := started CONFIG entity st)
    as (HI & HT & _).
  - intros u params. now repeat constructor.
  - intros st' Hst'. now repeat constructor.
  - intros st' v. now apply watermark_kept_set_page.
  - intros st'. now apply watermark_kept_pop_page.
  - intros row st' Hst'.
    destruct (sync_row_cases entity start row st')
      as [[Hst Hev]|(record & u & old & w & Hu & Hge & Hold & Hmax & _ & Hr)].
    + rewrite Hst, Hev. split; [exact Hst'|]. split; [constructor|].
      intros a Ha. exact Logic.I.
    + cbv zeta in Hr. rewrite Hr.
      assert (Hkept : watermark_kept entity start (Dict.set entity w st')).
      { exists w. split; [apply get_set_same|].
        destruct (py_max_cases _ _ _ Hmax) as [-> | ->].
        - destruct Hst' as (w0 & Hw0 & Hle). congruence.
        - now right. }
      split; [exact Hkept|]. split; [now repeat constructor|].
      intros a Ha. exact Logic.I.
  - apply watermark_kept_started.
  - fold start. split; [exact HI|].
    constructor; [exact Logic.I | exact HT].
Qed.

(** * The orchestrator *)

(** As the loop body is written, a stream other than the marked one is
    passed over. *)
Lemma sync_stream_skips fuel s st marked :
  Dict.get "active_stream" st = Some (VStr marked) ->
  marked <> name s ->
  sync_stream fuel s st = (Ret tt, st, []).
Proof.
  intros Hm Hne. unfold sync_stream, bind, read_STATE, Dict.get_default.
  rewrite Hm. simpl. apply String.eqb_neq in Hne. now rewrite Hne.
Qed.

(** C1, on the code: [do_sync] asks the list [STREAMS] for [items], which a
    list does not have; whatever the state, the run ends there in an
    [AttributeError], before any stream is marked active, skipped or
    synced. *)
Theorem do_sync_raises CONFIG send fuel st :
  do_sync CONFIG send fuel st = (Raise (AttributeError "items"), st, []).
Proof. reflexivity. Qed.

(** * Record shaping *)

(** C9: [transform_dict] turns a mapping into the list of its items as
    two-key objects, in the order of the mapping, under [name] and [value]
    by default and under [question] and [value] for the ratings of a
    satisfaction rating. *)
Theorem transform_dict_pairs :
  (forall items,
      transform_dict (VDict items) "name" "value" =
      Ret (VList (map (pair_object "name" "value") items))) /\
  (forall items,
      transform_dict (VDict items) "question" "value" =
      Ret (VList (map (pair_object "question" "value") items))) /\
  transform_dict (VDict [("a", VInt 1); ("b", VStr "x")]) "name" "value" =
  Ret (VList [VDict [("name", VStr "a"); ("value", VInt 1)];
              VDict [("name", VStr "b"); ("value", VStr "x")]]) /\
  (forall items key_key value_key i k v,
      nth_error items i = Some (k, v) ->
      exists pairs,
        transform_dict (VDict items) key_key value_key = Ret (VList pairs) /\
        List.length pairs = List.length items /\
        exists pair,
          nth_error pairs i = Some (VDict pair) /\
          Dict.get value_key pair = Some v /\
          (key_key <> value_key -> Dict.get key_key pair = Some (VStr k))).
Proof.
  split; [reflexivity|]. split; [reflexivity|]. split; [reflexivity|].
  intros items key_key value_key i k v Hi. unfold transform_dict.
  eexists. split; [reflexivity|]. split; [apply length_map|].
  eexists. split.
  - erewrite map_nth_error by exact Hi. reflexivity.
  - cbn [fst snd]. split.
    + apply get_set_same.
    + intros Hne. rewrite get_set_other by exact Hne. apply get_set_same.
Qed.

Lemma transform_dict_pairs_witness :
  nth_error [("a", VInt 1); ("b", VStr "x")] 1 = Some ("b", VStr "x") /\
  exists pairs,
    transform_dict (VDict [("a", VInt 1); ("b", VStr "x")]) "name" "value" =
    Ret (VList pairs) /\
    List.length pairs = 2%nat /\
    exists pair,
      nth_error pairs 1 = Some (VDict pair) /\
      Dict.get "value" pair = Some (VStr "x") /\
      ("name" <> "value" -> Dict.get "name" pair = Some (VStr "b")).
Proof.
  split; [reflexivity|].
  exact (proj2 (proj2 (proj2 transform_dict_pairs))
           [("a", VInt 1); ("b", VStr "x")] "name" "value" 1%nat
           "b" (VStr "x") eq_refl).
Defined.

(** * The cursor, on the sample accounts *)



(** C4 fails as stated: interrupted after the state with page 2 was
    written, that is after the first page, the restart asks for page 2,
    the page not yet fetched, and not for page 3. *)
Lemma restart_asks_for_persisted_page_2 :
  let crashed := gen_request Sample.directory 1 Sample.companies_url None
                   Sample.count 0%nat [] in
  let st := persisted [] (events_of crashed) in
  let restart := gen_request Sample.directory 3 Sample.companies_url None
                   Sample.count 0%nat st in
  outcome_of crashed = OutOfFuel /\
  Dict.get "page" st = Some (VInt 2) /\
  first_page_requested (events_of restart) = Some (VInt 2) /\
  first_page_requested (events_of restart) <> Some (VInt 3).
Proof. vm_compute. repeat split; discriminate. Qed.

Lemma resume_requests_persisted_page_witness :
  let send := Sample.directory in
  let u := Sample.companies_url in
  let st := [("page", VInt 2)] in
  let q := page_query None (cursor st) in
  let st3 := Dict.set "page" (VInt 3) st in
  passes (send u q) /\
  List.length (json (send u q)) = PER_PAGE /\
  for_each (json (send u q)) Sample.count 0%nat st = (Ret 100%nat, st, []) /\
  py_incr (cursor st) = Ret (VInt 3) /\
  persisted st (HttpGet u q :: [] ++ [MsgState st3]) = st3 /\
  VInt 3 <> cursor st /\
  first_page_requested
    (events_of (gen_request send 1 u None Sample.count 0%nat st3)) =
  Some (VInt 3).
Proof.
  intros send u st q st3.
  assert (Hok : passes (send u (page_query None (cursor st))))
    by reflexivity.
  assert (Hlen : List.length (json (send u (page_query None (cursor st))))
                 = PER_PAGE) by reflexivity.
  assert (Hrows : for_each (json (send u (page_query None (cursor st))))
                    Sample.count 0%nat st = (Ret 100%nat, st, []))
    by reflexivity.
  assert (Hincr : py_incr (cursor st) = Ret (VInt 3)) by reflexivity.
  destruct (resume_requests_persisted_page send Sample.count 0 u None
              0%nat st 100%nat st [] (VInt 3) Hok Hlen Hrows Hincr)
    as (_ & Hp & _ & Hmoved & Hfirst).
  split; [exact Hok|]. split; [exact Hlen|]. split; [exact Hrows|].
  split; [exact Hincr|]. split; [exact Hp|]. split; [exact Hmoved|].
  exact (Hfirst 0%nat 0%nat).
Defined.

(** * Tickets and their sub-resources *)

(** The handler of the two optional sub-resources, by itself: a 403 ends
    the [try] statement normally, any other status is raised again. *)
Lemma forbidden_is_skipped (m : M unit) st st1 ev1 :
  m st = (Raise (HTTPError 403), st1, ev1) ->
  try_except_HTTPError m skip_if_403 st = (Ret tt, st1, ev1).
Proof.
  intros H. unfold try_except_HTTPError. rewrite H. simpl.
  now rewrite app_nil_r.
Qed.

Lemma other_status_is_raised (m : M unit) st st1 ev1 code :
  code <> 403%Z ->
  m st = (Raise (HTTPError code), st1, ev1) ->
  try_except_HTTPError m skip_if_403 st = (Raise (HTTPError code), st1, ev1).
Proof.
  intros Hne H. unfold try_except_HTTPError, skip_if_403. rewrite H.
  apply Z.eqb_neq in Hne. rewrite Hne. simpl. now rewrite app_nil_r.
Qed.

(** A sub-resource whose first request is refused: the listing raises the
    [HTTPError] at once. *)
Lemma sub_resource_refused CONFIG send fuel entity row body st id :
  Dict.get "id" row = Some id ->
  let u := Url (domain CONFIG) "/api/v2/tickets/{id}/{entity}"
             [("id", id); ("entity", VStr entity)] in
  let q := page_query None (cursor st) in
  ~ passes (send u q) ->
  list_sub_resource CONFIG send (S fuel) entity row body st =
  (Raise (HTTPError (status_code (send u q))), st, [HttpGet u q]).
Proof.
  intros Hid u q Hrefused.
  unfold list_sub_resource, bind at 1 2, lift at 1 2, Dict.getitem.
  rewrite Hid. erewrite bind_ret_run by reflexivity.
  rewrite gen_request_run. cbv zeta. cbn [gen_request_loop].
  unfold bind at 1. rewrite request_run.
  fold (page_query None (cursor st)). fold u. fold q.
  unfold passes in Hrefused. apply not_false_is_true in Hrefused.
  rewrite Hrefused. reflexivity.
Qed.

(** The two optional sub-resources, taken by themselves, have the policy
    of the spec: refused with 403, the [try] statement ends normally;
    refused with another status, it raises. *)
Lemma forbidden_sub_resource_is_skipped CONFIG send fuel entity row body st
    id :
  Dict.get "id" row = Some id ->
  let u := Url (domain CONFIG) "/api/v2/tickets/{id}/{entity}"
             [("id", id); ("entity", VStr entity)] in
  let q := page_query None (cursor st) in
  status_code (send u q) = 403%Z ->
  try_except_HTTPError
    (list_sub_resource CONFIG send (S fuel) entity row body) skip_if_403 st =
  (Ret tt, st, [HttpGet u q]).
Proof.
  intros Hid u q Hcode.
  apply forbidden_is_skipped.
  rewrite (sub_resource_refused CONFIG send fuel entity row body st id Hid).
  - fold u q. now rewrite Hcode.
  - fold u q. unfold passes. now rewrite Hcode.
Qed.

Lemma failing_sub_resource_aborts CONFIG send fuel entity row body st id :
  Dict.get "id" row = Some id ->
  let u := Url (domain CONFIG) "/api/v2/tickets/{id}/{entity}"
             [("id", id); ("entity", VStr entity)] in
  let q := page_query None (cursor st) in
  ~ passes (send u q) ->
  status_code (send u q) <> 403%Z ->
  try_except_HTTPError
    (list_sub_resource CONFIG send (S fuel) entity row body) skip_if_403 st =
  (Raise (HTTPError (status_code (send u q))), st, [HttpGet u q]).
Proof.
  intros Hid u q Hrefused Hcode.
  apply other_status_is_raised; [exact Hcode|].
  now apply sub_resource_refused.
Qed.

(** C5, on the code: no run of [sync_tickets] returns or writes a ticket
    record, since the listing of a ticket's conversations, which comes
    first, always ends in an exception; on the sample help desk, whose
    surveys answer 403, the run dies of the unbound name [sincer] after the
    conversations of ticket 7, before any request for its satisfaction
    ratings. *)
Theorem ticket_is_never_written :
  (forall CONFIG send fuel st,
      let r := sync_tickets CONFIG send fuel st in
      outcome_of r <> Ret tt /\ emits_none "tickets" (events_of r)) /\
  (let r := sync_tickets Sample.cfg Sample.helpdesk 3 [] in
   outcome_of r = Raise (NameError "sincer") /\
   List.length (requests_of "conversations" (events_of r)) = 1%nat /\
   requests_of "satisfaction_ratings" (events_of r) = [] /\
   requests_of "time_entries" (events_of r) = []).
Proof.
  split.
  - intros CONFIG send fuel st r.
    destruct (sync_tickets_writes CONFIG send fuel st) as (_ & HT & HQ).
    split; [exact HQ|].
    intros record Hin. rewrite Forall_forall in HT.
    destruct (HT _ Hin) as [Hs _]. discriminate.
  - vm_compute. repeat split.
Qed.

(** * Time-filtered streams *)




(** * Watermarks *)

(** C7: [get_start] returns the watermark the state holds for the stream
    and leaves the state alone, and takes [start_date] only when the state
    holds none; and in every run of a stream's sync, however it ends, the
    state at its end and every state it has written hold a watermark for
    the stream that is the one read at the start or is [>=] it. *)
Theorem watermark_never_decreases CONFIG send fuel st :
  (forall entity w,
      Dict.get entity st = Some w ->
      get_start CONFIG entity st = (Ret w, st, [])) /\
  (forall entity,
      Dict.get entity st = None ->
      get_start CONFIG entity st =
      (Ret (start_date CONFIG), Dict.set entity (start_date CONFIG) st, [])) /\
  (forall entity,
      entity <> "page" ->
      let start := watermark CONFIG entity st in
      let r := sync_time_filtered CONFIG send fuel entity st in
      watermark_kept entity start (state_of r) /\
      forall st', In (MsgState st') (events_of r) ->
                  watermark_kept entity start st') /\
  (let start := watermark CONFIG "tickets" st in
   let r := sync_tickets CONFIG send fuel st in
   watermark_kept "tickets" start (state_of r) /\
   forall st', In (MsgState st') (events_of r) ->
               watermark_kept "tickets" start st').
Proof.
  split; [|split; [|split]].
  - intros entity w H. rewrite get_start_run.
    unfold watermark, started, Dict.get_default, Dict.mem. now rewrite H.
  - intros entity H. rewrite get_start_run.
    unfold watermark, started, Dict.get_default, Dict.mem. now rewrite H.
  - intros entity Hne start r.
    destruct (sync_time_filtered_keeps CONFIG send fuel entity st Hne)
      as (HI & HT).
    split; [exact HI|]. intros st' Hin.
    rewrite Forall_forall in HT. exact (HT _ Hin).
  - intros start r.
    destruct (sync_tickets_writes CONFIG send fuel st) as (HI & HT & _).
    split; [exact HI|]. intros st' Hin.
    rewrite Forall_forall in HT. exact (HT _ Hin).
Qed.

Lemma watermark_never_decreases_witness :
  let st := [("agents", VStr "2020-06-01T00:00:00Z")] in
  let r := sync_time_filtered Sample.cfg Sample.staff 3 "agents" st in
  Dict.get "agents" st = Some (VStr "2020-06-01T00:00:00Z") /\
  "agents" <> "page" /\
  In (MsgState [("agents", VStr "2021-05-01T00:00:00Z")]) (events_of r) /\
  get_start Sample.cfg "agents" st =
  (Ret (VStr "2020-06-01T00:00:00Z"), st, []) /\
  watermark_kept "agents" (VStr "2020-06-01T00:00:00Z") (state_of r) /\
  watermark_kept "agents" (VStr "2020-06-01T00:00:00Z")
    [("agents", VStr "2021-05-01T00:00:00Z")].
Proof.
  intros st r.
  assert (Hget : Dict.get "agents" st = Some (VStr "2020-06-01T00:00:00Z"))
    by reflexivity.
  assert (Hne : "agents" <> "page") by discriminate.
  assert (Hin : In (MsgState [("agents", VStr "2021-05-01T00:00:00Z")])
                   (events_of r)) by (vm_compute; auto).
  destruct (watermark_never_decreases Sample.cfg Sample.staff 3 st)
    as (Hstart & _ & Hrun & _).
  destruct (Hrun "agents" Hne) as (Hend & Hstates).
  split; [exact Hget|]. split; [exact Hne|]. split; [exact Hin|].
  split; [exact (Hstart "agents" _ Hget)|].
  split; [exact Hend | exact (Hstates _ Hin)].
Defined.

(** * The filter *)

Lemma write_if_recent_filtered stream start subrow st :
  Forall (filtered_event start)
    (events_of (write_if_recent stream start subrow st)).
Proof.
  destruct (write_if_recent_cases stream start subrow st)
    as [_ [-> | [Hrecent ->]]]; now repeat constructor.
Qed.

(** Each of the three loop bodies writes nothing but a record that passed
    the filter. *)
Lemma sub_rows_are_filtered start subrow st :
  Forall (filtered_event start)
    (events_of (conversation_row start tt subrow st)) /\
  Forall (filtered_event start) (events_of (rating_row start tt subrow st)) /\
  Forall (filtered_event start)
    (events_of (time_entry_row start tt subrow st)).
Proof.
  split; [|split]; try apply write_if_recent_filtered.
  unfold rating_row, bind at 1, lift at 1, Dict.getitem.
  destruct (Dict.get "ratings" subrow) as [ratings|]; [|constructor].
  unfold bind at 1, lift at 1.
  destruct (transform_dict ratings "question" "value") as [pairs| |];
    try constructor.
  pose proof (write_if_recent_filtered "satisfaction_ratings" start
                (Dict.set "ratings" pairs subrow) st) as H.
  destruct (write_if_recent _ _ _ _) as [[r st1] ev1].
  exact H.
Qed.

(** C8: a record whose [updated_at] is [<] the watermark read at the start
    of the sync is not written, neither by [sync_time_filtered] nor, as a
    conversation, satisfaction rating or time entry, by [sync_tickets] or by
    the body of any of its three sub-resource loops. *)
Theorem stale_records_are_not_written CONFIG send fuel st stream record u :
  Dict.get "updated_at" record = Some u ->
  (forall entity,
      py_lt u (watermark CONFIG entity st) = Ret true ->
      ~ In (MsgRecord stream record)
           (events_of (sync_time_filtered CONFIG send fuel entity st))) /\
  (In stream ["conversations"; "satisfaction_ratings"; "time_entries"] ->
   py_lt u (watermark CONFIG "tickets" st) = Ret true ->
   ~ In (MsgRecord stream record)
        (events_of (sync_tickets CONFIG send fuel st))) /\
  (forall start subrow st',
      py_lt u start = Ret true ->
      ~ In (MsgRecord stream record)
           (events_of (conversation_row start tt subrow st') ++
            events_of (rating_row start tt subrow st') ++
            events_of (time_entry_row start tt subrow st'))).
Proof.
  intros Hu. split; [|split].
  - intros entity Hlt Hin.
    destruct (sync_time_filtered_writes CONFIG send fuel entity st)
      as (HT & _).
    rewrite Forall_forall in HT.
    destruct (HT _ Hin) as (u' & Hu' & Hge).
    apply py_lt_not_ge in Hlt. congruence.
  - intros _ Hlt Hin.
    destruct (sync_tickets_writes CONFIG send fuel st) as (_ & HT & _).
    rewrite Forall_forall in HT.
    destruct (HT _ Hin) as (_ & u' & Hu' & Hge).
    apply py_lt_not_ge in Hlt. congruence.
  - intros start subrow st' Hlt Hin.
    destruct (sub_rows_are_filtered start subrow st') as (H1 & H2 & H3).
    assert (HT : Forall (filtered_event start)
                   (events_of (conversation_row start tt subrow st') ++
                    events_of (rating_row start tt subrow st') ++
                    events_of (time_entry_row start tt subrow st'))).
    { repeat (apply Forall_app; split); assumption. }
    rewrite Forall_forall in HT.
    destruct (HT _ Hin) as (u' & Hu' & Hge).
    apply py_lt_not_ge in Hlt. congruence.
Qed.

Lemma stale_records_are_not_written_witness :
  Dict.get "updated_at" Sample.agent2 = Some (VStr "2019-05-01T00:00:00Z") /\
  py_lt (VStr "2019-05-01T00:00:00Z") (watermark Sample.cfg "agents" []) =
  Ret true /\
  In Sample.agent2
     (json (Sample.staff (Url (VStr "acme") "/api/v2/agents" [])
              (page_query None (VInt 1)))) /\
  ~ In (MsgRecord "agents" Sample.agent2)
       (events_of (sync_time_filtered Sample.cfg Sample.staff 3 "agents" [])).
Proof.
  split; [reflexivity|]. split; [reflexivity|].
  split; [right; left; reflexivity|].
  apply (proj1 (stale_records_are_not_written Sample.cfg Sample.staff 3 []
                  "agents" Sample.agent2 (VStr "2019-05-01T00:00:00Z")
                  eq_refl) "agents").
  reflexivity.
Defined.

(** * Records without [custom_fields] *)





(** * Pagination over several pages *)

Lemma for_each_yield_to stream rows st :
  for_each rows (yield_to stream) tt st =
  (Ret tt, st, map (MsgRecord stream) rows).
Proof.
  induction rows as [|row rows IH]; [reflexivity|].
  cbn [for_each]. unfold bind. cbn [yield_to write_record emit].
  now rewrite IH.
Qed.

Lemma records_of_app a b : records_of (a ++ b) = records_of a ++ records_of b.
Proof. apply flat_map_app. Qed.

Lemma pages_requested_app a b :
  pages_requested (a ++ b) = pages_requested a ++ pages_requested b.
Proof. apply flat_map_app. Qed.

Lemma records_of_records stream rows :
  records_of (map (MsgRecord stream) rows) = rows.
Proof. induction rows; simpl; congruence. Qed.

Lemma pages_requested_records stream rows :
  pages_requested (map (MsgRecord stream) rows) = [].
Proof. induction rows; simpl; auto. Qed.

Lemma persisted_app st0 a b :
  persisted st0 (a ++ b) = persisted (persisted st0 a) b.
Proof.
  revert st0. induction a as [|e a IH]; intros st0; [reflexivity|].
  destruct e; simpl; apply IH.
Qed.

Lemma persisted_records st0 stream rows :
  persisted st0 (map (MsgRecord stream) rows) = st0.
Proof. induction rows; simpl; auto. Qed.

Lemma paged_set_page send u base x p k :
  paged send u (Dict.set "page" x base) p k <-> paged send u base p k.
Proof.
  revert p. induction k as [|k IH]; intros p; simpl;
    rewrite set_set_same; [tauto|].
  now rewrite IH.
Qed.

Lemma listing_set_page send u base x p k :
  listing send u (Dict.set "page" x base) p k = listing send u base p k.
Proof.
  revert p. induction k as [|k IH]; intros p; simpl;
    rewrite set_set_same; [reflexivity|].
  now rewrite IH.
Qed.

Lemma pages_requested_get u q events :
  pages_requested (HttpGet u q :: events) =
  match Dict.get "page" q with Some v => [v] | None => [] end ++
  pages_requested events.
Proof. reflexivity. Qed.

Lemma pages_requested_state st events :
  pages_requested (MsgState st :: events) = pages_requested events.
Proof. reflexivity. Qed.

Lemma records_of_get u q events :
  records_of (HttpGet u q :: events) = records_of events.
Proof. reflexivity. Qed.

Lemma records_of_state st events :
  records_of (MsgState st :: events) = records_of events.
Proof. reflexivity. Qed.

(** The loop over a listing of [k] full pages and a short one: every page
    is requested once and in order, its rows are yielded in order, and the
    cursor is stored and written after each full page. *)
Lemma loop_pages send u stream extra k :
  forall p base st st0,
    paged send u base p k ->
    let r := gen_request_loop send (S k + extra) u base (VInt p)
               (yield_to stream) tt st in
    let left_behind st' :=
      match k with
      | O => st'
      | S _ => Dict.set "page" (VInt (p + Z.of_nat k)) st
      end in
    outcome_of r = Ret tt /\
    state_of r = left_behind st /\
    pages_requested (events_of r) = page_numbers p (S k) /\
    records_of (events_of r) = listing send u base p k /\
    persisted st0 (events_of r) = left_behind st0.
Proof.
  induction k as [|k IH]; intros p base st st0 Hpaged.
  - destruct Hpaged as [Hok Hlen]. cbv zeta.
    change (1 + extra)%nat with (S extra).
    rewrite (loop_short_page send (yield_to stream) extra u base
               (VInt p) tt st tt st _ Hok Hlen (for_each_yield_to _ _ _)).
    unfold outcome_of, state_of, events_of. cbn [fst snd].
    split; [reflexivity|]. split; [reflexivity|]. split; [|split].
    + rewrite pages_requested_get, get_set_same, pages_requested_records.
      reflexivity.
    + rewrite records_of_get, records_of_records. cbn [listing].
      now rewrite app_nil_r.
    + cbn [persisted]. apply persisted_records.
  - destruct Hpaged as (Hok & Hlen & Hrest). cbv zeta.
    change (S (S k) + extra)%nat with (S (S k + extra)).
    rewrite (loop_full_page send (yield_to stream) (S k + extra) u base
               (VInt p) tt st tt st _ (VInt (p + 1)) Hok Hlen
               (for_each_yield_to _ _ _) eq_refl).
    cbv zeta.
    apply (paged_set_page send u base (VInt p)) in Hrest.
    destruct (IH (p + 1)%Z (Dict.set "page" (VInt p) base)
                (Dict.set "page" (VInt (p + 1)) st)
                (Dict.set "page" (VInt (p + 1)) st) Hrest)
      as (Hout & Hst & Hpages & Hrecords & Hpersisted).
    cbv zeta in Hout, Hst, Hpages, Hrecords, Hpersisted.
    unfold outcome_of, state_of, events_of in *. cbn [fst snd] in *.
    assert (Hleft : match k with
                    | O => Dict.set "page" (VInt (p + 1)) st
                    | S _ => Dict.set "page"
                               (VInt (p + 1 + Z.of_nat k))
                               (Dict.set "page" (VInt (p + 1)) st)
                    end = Dict.set "page" (VInt (p + Z.of_nat (S k))) st).
    { destruct k; [reflexivity|]. rewrite set_set_same.
      now replace (p + 1 + Z.of_nat (S k))%Z
        with (p + Z.of_nat (S (S k)))%Z by lia. }
    split; [exact Hout|]. split; [now rewrite Hst|].
    split; [|split].
    + rewrite pages_requested_get, get_set_same, pages_requested_app,
        pages_requested_records, pages_requested_state, Hpages.
      reflexivity.
    + rewrite records_of_get, records_of_app, records_of_records,
        records_of_state, Hrecords, listing_set_page.
      reflexivity.
    + cbn [persisted]. rewrite persisted_app, persisted_records.
      cbn [persisted]. now rewrite Hpersisted.
Qed.

(** C2, on the code: over a listing of [k] full pages and a short one,
    started at page [p], [gen_request] asks for the pages [p], ..., [p + k]
    in order and yields exactly their rows, in order, and stores and
    writes the moved cursor after each full page; at the short page it pops
    the cursor from [STATE], but then dies of the unbound name [sincer]:
    the cleared state is never written, and the last state written still
    holds the cursor [p + k] when there was a full page. *)
Theorem pagination_ends_in_name_error send u params stream st p k extra :
  cursor st = VInt p ->
  paged send u (page_base params) p k ->
  let r := gen_request send (S k + extra) u params (yield_to stream) tt st in
  pages_requested (events_of r) = page_numbers p (S k) /\
  records_of (events_of r) = listing send u (page_base params) p k /\
  Dict.get "page" (state_of r) = None /\
  outcome_of r = Raise (NameError "sincer") /\
  persisted st (events_of r) =
  match k with
  | O => st
  | S _ => Dict.set "page" (VInt (p + Z.of_nat k)) st
  end.
Proof.
  intros Hcur Hpaged r. unfold r. rewrite gen_request_run, Hcur. cbv zeta.
  destruct (loop_pages send u stream extra k p (page_base params) st st
              Hpaged)
    as (Hout & Hst & Hpages & Hrecords & Hpersisted).
  cbv zeta in Hout, Hst, Hpages, Hrecords, Hpersisted.
  rewrite Hout. unfold outcome_of at 1, state_of at 1, events_of at 1 2 3.
  cbn [fst snd].
  split; [exact Hpages|]. split; [exact Hrecords|].
  split; [apply get_pop_same|]. split; [reflexivity | exact Hpersisted].
Qed.

Lemma pagination_ends_in_name_error_witness :
  let r := gen_request Sample.directory 3 Sample.companies_url None
             (yield_to "companies") tt [] in
  cursor [] = VInt 1 /\
  paged Sample.directory Sample.companies_url (page_base None) 1 2 /\
  pages_requested (events_of r) = [VInt 1; VInt 2; VInt 3] /\
  List.length (records_of (events_of r)) = 201%nat /\
  Dict.get "page" (state_of r) = None /\
  outcome_of r = Raise (NameError "sincer") /\
  persisted [] (events_of r) = [("page", VInt 3)].
Proof.
  intros r.
  assert (Hcur : cursor [] = VInt 1) by reflexivity.
  assert (Hpaged : paged Sample.directory Sample.companies_url
                     (page_base None) 1 2).
  { repeat split; vm_compute; discriminate. }
  destruct (pagination_ends_in_name_error Sample.directory
              Sample.companies_url None "companies" [] 1 2 0 Hcur Hpaged)
    as (Hpages & Hrecords & Hpage & Hout & Hpersisted).
  change (3 + 0)%nat with 3%nat in Hrecords.
  split; [exact Hcur|]. split; [exact Hpaged|]. split; [exact Hpages|].
  split; [unfold r; rewrite Hrecords; reflexivity|].
  split; [exact Hpage|]. split; [exact Hout | exact Hpersisted].
Defined.

(** * The paginator when a page fails *)

Lemma loop_set_page {A} send (body : A -> dict -> M A) fuel u base x page
    acc st :
  gen_request_loop send fuel u (Dict.set "page" x base) page body acc st =
  gen_request_loop send fuel u base page body acc st.
Proof.
  destruct fuel as [|fuel]; [reflexivity|].
  cbn [gen_request_loop]. now rewrite set_set_same.
Qed.

Lemma loop_refused {A} send (body : A -> dict -> M A) fuel u params page
    acc st :
  let q := Dict.set "page" page params in
  ~ passes (send u q) ->
  gen_request_loop send (S fuel) u params page body acc st =
  (Raise (HTTPError (status_code (send u q))), st, [HttpGet u q]).
Proof.
  intros q Hrefused. cbn [gen_request_loop]. unfold bind at 1.
  rewrite request_run. fold q.
  unfold passes in Hrefused. apply not_false_is_true in Hrefused.
  fold q in Hrefused. now rewrite Hrefused.
Qed.

Lemma full_pages_set_page send u base x p k :
  full_pages send u (Dict.set "page" x base) p k <-> full_pages send u base p k.
Proof.
  revert p. induction k as [|k IH]; intros p; simpl; [tauto|].
  rewrite set_set_same. now rewrite IH.
Qed.

Lemma rows_of_pages_set_page send u base x p k :
  rows_of_pages send u (Dict.set "page" x base) p k =
  rows_of_pages send u base p k.
Proof.
  revert p. induction k as [|k IH]; intros p; simpl; [reflexivity|].
  rewrite set_set_same. now rewrite IH.
Qed.

Lemma moved_on_step p k st :
  moved_on (p + 1) k (Dict.set "page" (VInt (p + 1)) st) =
  moved_on p (S k) st.
Proof.
  unfold moved_on. destruct k; [reflexivity|]. rewrite set_set_same.
  now replace (p + 1 + Z.of_nat (S k))%Z with (p + Z.of_nat (S (S k)))%Z
    by lia.
Qed.

(** The loop over [k] full pages and then a page that is refused. *)
Lemma loop_until_refused send u stream extra k :
  forall p base st st0,
    full_pages send u base p k ->
    ~ passes (send u (Dict.set "page" (VInt (p + Z.of_nat k)) base)) ->
    let r := gen_request_loop send (S k + extra) u base (VInt p)
               (yield_to stream) tt st in
    outcome_of r =
    Raise (HTTPError
             (status_code
                (send u (Dict.set "page" (VInt (p + Z.of_nat k)) base)))) /\
    state_of r = moved_on p k st /\
    records_of (events_of r) = rows_of_pages send u base p k /\
    persisted st0 (events_of r) =
    match k with O => st0 | S _ => moved_on p k st end.
Proof.
  induction k as [|k IH]; intros p base st st0 Hfull Hrefused.
  - cbv zeta. change (1 + extra)%nat with (S extra).
    replace (p + Z.of_nat 0)%Z with p in * by lia.
    rewrite (loop_refused send (yield_to stream) extra u base (VInt p) tt st
               Hrefused).
    repeat split.
  - destruct Hfull as (Hok & Hlen & Hrest). cbv zeta.
    change (S (S k) + extra)%nat with (S (S k + extra)).
    rewrite (loop_full_page send (yield_to stream) (S k + extra) u base
               (VInt p) tt st tt st _ (VInt (p + 1)) Hok Hlen
               (for_each_yield_to _ _ _) eq_refl).
    cbv zeta. rewrite loop_set_page.
    replace (p + Z.of_nat (S k))%Z with (p + 1 + Z.of_nat k)%Z in * by lia.
    destruct (IH (p + 1)%Z base (Dict.set "page" (VInt (p + 1)) st)
                (Dict.set "page" (VInt (p + 1)) st) Hrest Hrefused)
      as (Hout & Hst & Hrecords & Hpersisted).
    cbv zeta in Hout, Hst, Hrecords, Hpersisted.
    unfold outcome_of, state_of, events_of in *. cbn [fst snd] in *.
    split; [exact Hout|]. split; [now rewrite Hst, moved_on_step|].
    split.
    + rewrite records_of_get, records_of_app, records_of_records,
        records_of_state, Hrecords.
      reflexivity.
    + cbn [persisted]. rewrite persisted_app, persisted_records.
      cbn [persisted]. rewrite Hpersisted, <- moved_on_step.
      now destruct k.
Qed.

(** X1: when the request of a page is refused after [k] full pages, the
    listing raises that [HTTPError] having yielded exactly the rows of the
    full pages; the cursor in [STATE], and in the last state written, is
    the number of the refused page, so a restart asks for that page
    first. *)
Theorem refused_page_is_asked_again send u params stream st p k extra :
  cursor st = VInt p ->
  full_pages send u (page_base params) p k ->
  ~ passes (send u (page_query params (VInt (p + Z.of_nat k)))) ->
  let r := gen_request send (S k + extra) u params (yield_to stream) tt st in
  outcome_of r =
  Raise (HTTPError
           (status_code
              (send u (page_query params (VInt (p + Z.of_nat k)))))) /\
  records_of (events_of r) = rows_of_pages send u (page_base params) p k /\
  cursor (state_of r) = VInt (p + Z.of_nat k) /\
  cursor (persisted st (events_of r)) = VInt (p + Z.of_nat k) /\
  forall B (body : B -> dict -> M B) fuel' acc,
    first_page_requested
      (events_of (gen_request send (S fuel') u params body acc
                    (persisted st (events_of r)))) =
    Some (VInt (p + Z.of_nat k)).
Proof.
  intros Hcur Hfull Hrefused r.
  assert (Hmoved : cursor (moved_on p k st) = VInt (p + Z.of_nat k)).
  { unfold moved_on. destruct k; [|apply cursor_set_page].
    rewrite Hcur. f_equal. simpl. lia. }
  unfold r. rewrite gen_request_run, Hcur. cbv zeta.
  destruct (loop_until_refused send u stream extra k p (page_base params)
              st st Hfull Hrefused)
    as (Hout & Hst & Hrecords & Hpersisted).
  cbv zeta in Hout, Hst, Hrecords, Hpersisted.
  rewrite Hout.
  assert (Hp : persisted st
                 (events_of
                    (gen_request_loop send (S k + extra) u
                       (page_base params) (VInt p) (yield_to stream) tt st))
               = moved_on p k st).
  { rewrite Hpersisted. now destruct k. }
  split; [exact Hout|]. split; [exact Hrecords|].
  split; [now rewrite Hst|]. split; [now rewrite Hp|].
  intros B body fuel' acc.
  now rewrite gen_request_first_page, Hp, Hmoved.
Qed.

Lemma refused_page_is_asked_again_witness :
  let r := gen_request Sample2.flaky 5 Sample.companies_url None
             (yield_to "companies") tt [] in
  cursor [] = VInt 1 /\
  full_pages Sample2.flaky Sample.companies_url (page_base None) 1 2 /\
  ~ passes (Sample2.flaky Sample.companies_url (page_query None (VInt 3))) /\
  outcome_of r = Raise (HTTPError 502) /\
  List.length (records_of (events_of r)) = 200%nat /\
  cursor (persisted [] (events_of r)) = VInt 3.
Proof.
  intros r.
  assert (Hcur : cursor [] = VInt 1) by reflexivity.
  assert (Hfull : full_pages Sample2.flaky Sample.companies_url
                    (page_base None) 1 2) by (repeat split).
  assert (Hrefused : ~ passes (Sample2.flaky Sample.companies_url
                                 (page_query None (VInt (1 + Z.of_nat 2)))))
    by (vm_compute; discriminate).
  destruct (refused_page_is_asked_again Sample2.flaky Sample.companies_url
              None "companies" [] 1 2 2 Hcur Hfull Hrefused)
    as (Hout & Hrecords & _ & Hp & _).
  split; [exact Hcur|]. split; [exact Hfull|]. split; [exact Hrefused|].
  split; [exact Hout|].
  split; [unfold r; change 5%nat with (3 + 2)%nat; rewrite Hrecords;
          reflexivity|].
  exact Hp.
Defined.


Lemma loop_incr_fails {A} send (body : A -> dict -> M A) fuel u params page
    acc st acc' st1 ev1 :
  let q := Dict.set "page" page params in
  as_num page = None ->
  passes (send u q) ->
  List.length (json (send u q)) = PER_PAGE ->
  for_each (json (send u q)) body acc st = (Ret acc', st1, ev1) ->
  gen_request_loop send (S fuel) u params page body acc st =
  (Raise TypeError, st1, HttpGet u q :: ev1).
Proof.
  intros q Hnum Hok Hlen Hrows. cbn [gen_request_loop]. unfold bind at 1.
  rewrite request_run. fold q. unfold passes in Hok. fold q in Hok.
  rewrite Hok. erewrite bind_ret_run by exact Hrows.
  rewrite Hlen, Nat.eqb_refl. unfold py_incr. rewrite Hnum.
  unfold bind, lift. cbn. now rewrite app_nil_r.
Qed.



(** X3: a [page] entry of the state that is not a number is sent as it
    is with the first request; when that page comes back full, the rows
    are yielded and [page += 1] then raises [TypeError], with no state
    written and [STATE] as the consumer left it. *)
Theorem non_numeric_cursor_raises {A} send (body : A -> dict -> M A)
    fuel u params acc st acc' st1 ev1 :
  as_num (cursor st) = None ->
  passes (send u (page_query params (cursor st))) ->
  List.length (json (send u (page_query params (cursor st)))) = PER_PAGE ->
  for_each (json (send u (page_query params (cursor st)))) body acc st =
  (Ret acc', st1, ev1) ->
  gen_request send (S fuel) u params body acc st =
  (Raise TypeError, st1, HttpGet u (page_query params (cursor st)) :: ev1).
Proof.
  intros Hnum Hok Hlen Hrows.
  rewrite gen_request_run. cbv zeta.
  now rewrite (loop_incr_fails send body fuel u (page_base params)
                 (cursor st) acc st acc' st1 ev1 Hnum Hok Hlen Hrows).
Qed.

Lemma non_numeric_cursor_raises_witness :
  let st := [("page", VStr "2")] in
  let q := page_query None (cursor st) in
  as_num (cursor st) = None /\
  passes (Sample2.endless Sample.companies_url q) /\
  List.length (json (Sample2.endless Sample.companies_url q)) = PER_PAGE /\
  for_each (json (Sample2.endless Sample.companies_url q)) Sample.count
    0%nat st = (Ret 100%nat, st, []) /\
  gen_request Sample2.endless 1 Sample.companies_url None Sample.count
    0%nat st =
  (Raise TypeError, st, [HttpGet Sample.companies_url q]).
Proof.
  intros st q.
  assert (Hnum : as_num (cursor st) = None) by reflexivity.
  assert (Hok : passes (Sample2.endless Sample.companies_url
                          (page_query None (cursor st)))) by reflexivity.
  assert (Hlen : List.length
                   (json (Sample2.endless Sample.companies_url
                            (page_query None (cursor st)))) = PER_PAGE)
    by reflexivity.
  assert (Hrows : for_each
                    (json (Sample2.endless Sample.companies_url
                             (page_query None (cursor st))))
                    Sample.count 0%nat st = (Ret 100%nat, st, []))
    by reflexivity.
  split; [exact Hnum|]. split; [exact Hok|]. split; [exact Hlen|].
  split; [exact Hrows|].
  exact (non_numeric_cursor_raises Sample2.endless Sample.count 0
           Sample.companies_url None 0%nat st 100%nat st [] Hnum Hok Hlen
           Hrows).
Defined.

(** * What a listing asks for *)

Lemma page_query_asks_as params page : asks_as params (page_query params page).
Proof.
  unfold asks_as, page_query, page_base. split; [|split].
  - rewrite get_set_other by discriminate. apply get_set_same.
  - exists page. apply get_set_same.
  - intros k Hpage Hper. now rewrite !get_set_other.
Qed.

Lemma maintains_events I T {A} (m : M A) Q st :
  maintains I T m Q -> I st -> T (events_of (m st)).
Proof. intros Hm HI. now destruct (Hm st HI) as (_ & HT & _). Qed.

Lemma maintains_ext I T {A} (m m' : M A) Q :
  (forall st, m st = m' st) -> maintains I T m' Q -> maintains I T m Q.
Proof. intros Heq Hm st HI. rewrite Heq. now apply Hm. Qed.

(** The rules of one listing, for a property of events that has to know
    which requests are made. *)
Section ListingLogic.

Variable send : url -> dict -> response.
Context (I : dict -> Prop) (T : list event -> Prop) `{!Compositional T}.
Variable u : url.
Variable params : option dict.

Hypothesis T_get_page : forall page, T [HttpGet u (page_query params page)].
Hypothesis T_state : forall st, I st -> T [MsgState st].
Hypothesis I_set_page : forall st v, I st -> I (Dict.set "page" v st).
Hypothesis I_pop_page : forall st, I st -> I (Dict.pop "page" st).

Lemma maintains_listing_loop {A} (body : A -> dict -> M A) (P : A -> Prop) :
  (forall acc row, P acc -> maintains I T (body acc row) P) ->
  forall fuel page acc, P acc ->
    maintains I T
      (gen_request_loop send fuel u (page_base params) page body acc) P.
Proof.
  intros Hbody. induction fuel as [|fuel IH]; intros page acc HP.
  - now mapply maintains_out_of_fuel.
  - cbn [gen_request_loop]. mapply maintains_seq.
    { unfold request. mapply maintains_seq.
      - mapply maintains_emit. apply T_get_page.
      - intros _. mapply maintains_seq.
        + unfold raise_for_status. mapply maintains_if; intros _;
            [mapply maintains_raise | now mapply maintains_ret].
        + intros _. now mapply maintains_ret. }
    intros resp. mbind P.
    { mapply maintains_for_each; assumption. }
    intros acc' HP'. mapply maintains_if; intros _.
    + mapply maintains_seq; [now mapply maintains_lift|]. intros page'.
      mapply maintains_seq; [mapply maintains_modify; auto|]. intros _.
      mapply maintains_seq.
      { mapply maintains_via_global. unfold write_state.
        mbind (fun st => T [MsgState st]).
        - mapply maintains_read. auto.
        - intros st Hst. now mapply maintains_emit. }
      intros _.
      apply maintains_ext
        with (m' := gen_request_loop send fuel u (page_base params) page'
                      body acc').
      * intros st. apply loop_set_page.
      * now apply IH.
    + now mapply maintains_ret.
Qed.

Lemma maintains_listing {A} (body : A -> dict -> M A) (P : A -> Prop)
    fuel acc :
  (forall acc row, P acc -> maintains I T (body acc row) P) ->
  P acc ->
  maintains I T (gen_request send fuel u params body acc) (fun _ => False).
Proof.
  intros Hbody HP. unfold gen_request. fold (page_base params).
  mapply maintains_seq; [now mapply maintains_read|]. intros st.
  mapply maintains_seq.
  { apply maintains_weaken with (Q := P); auto.
    now apply maintains_listing_loop. }
  intros acc'.
  mapply maintains_seq; [mapply maintains_modify; auto|]. intros _.
  rewrite sincer_is_unbound.
  mapply maintains_cut. now mapply maintains_raise.
Qed.

End ListingLogic.

(** X4: every request [gen_request] makes to its URL carries [per_page]
    = 100, a [page], and each other parameter of the caller unchanged,
    whatever page it is and however the run ends. *)
Theorem every_request_carries_the_parameters {A} send
    (body : A -> dict -> M A) fuel u params acc st :
  (forall acc row st,
      Forall (carries params u) (events_of (body acc row st))) ->
  Forall (carries params u)
         (events_of (gen_request send fuel u params body acc st)).
Proof.
  intros Hbody.
  destruct (maintains_listing send any_state (Forall (carries params u))
              u params) with (body := body) (P := fun _ : A => True)
      (fuel := fuel) (acc := acc) (st := st)
    as (_ & HT & _); try exact Logic.I; try (intros; exact Logic.I).
  - intros page. constructor; [|constructor].
    intros _. apply page_query_asks_as.
  - intros st' _. now repeat constructor.
  - intros acc' row _ st' _. split; [exact Logic.I|].
    split; [apply Hbody | intros; exact Logic.I].
  - exact HT.
Qed.

Lemma every_request_carries_the_parameters_witness :
  let params := Some [("updated_since", VStr "2020-01-01T00:00:00Z")] in
  let r := gen_request Sample.directory 2 Sample.companies_url params
             (yield_to "companies") tt [] in
  (forall acc row st,
      Forall (carries params Sample.companies_url)
             (events_of (yield_to "companies" acc row st))) /\
  pages_requested (events_of r) = [VInt 1; VInt 2] /\
  Forall (carries params Sample.companies_url) (events_of r).
Proof.
  intros params r.
  assert (Hbody : forall acc row st,
             Forall (carries params Sample.companies_url)
                    (events_of (yield_to "companies" acc row st))).
  { intros acc row st. now repeat constructor. }
  split; [exact Hbody|]. split; [reflexivity|].
  exact (every_request_carries_the_parameters Sample.directory
           (yield_to "companies") 2 Sample.companies_url params tt []
           Hbody).
Defined.

Lemma maintains_get_url_template CONFIG I T `{!Compositional T} endpoint
    kwargs :
  maintains I T (get_url CONFIG endpoint kwargs)
            (fun u => lookup endpoint endpoints = Some (url_template u)).
Proof.
  unfold get_url. destruct (lookup endpoint endpoints) as [template|].
  - mapply maintains_seq; [now mapply maintains_lift|].
    intros _. now mapply maintains_ret.
  - now mapply maintains_raise.
Qed.

Lemma sync_ticket_asks_elsewhere CONFIG send fuel start last_updated row :
  maintains any_state
    (Forall (carries (tickets_params start) (tickets_url CONFIG)))
    (sync_ticket CONFIG send fuel start last_updated row) (fun _ => False).
Proof.
  unfold sync_ticket.
  do 3 (mapply maintains_seq; [now mapply maintains_lift|]; intro).
  mapply maintains_cut. unfold list_sub_resource.
  do 2 (mapply maintains_seq; [now mapply maintains_lift|]; intro).
  mbind (fun u => lookup "sub_ticket" endpoints = Some (url_template u)).
  { apply maintains_get_url_template. exact _. }
  intros u Hu.
  apply (maintains_listing send any_state _ u None)
    with (P := fun _ : unit => True); try exact Logic.I;
    try (intros; exact Logic.I).
  - intros page. constructor; [|constructor].
    intros ->. discriminate.
  - intros st' _. now repeat constructor.
  - intros [] subrow _ st' _. split; [exact Logic.I|].
    split; [|intros; exact Logic.I].
    unfold conversation_row.
    destruct (write_if_recent_cases "conversations" start
                (Dict.pop "body" (Dict.pop "attachments" subrow)) st')
      as [_ [-> | [_ ->]]]; now repeat constructor.
Qed.

(** X5: every request [sync_tickets] makes to the tickets listing asks
    for the tickets updated since the watermark read at the start, in
    ascending order of [updated_at], 100 a page; the requests of
    [sync_time_filtered] carry [per_page] and [page] and no filter. *)
Theorem listings_are_asked_as_written CONFIG send fuel st :
  (forall q,
      In (HttpGet (tickets_url CONFIG) q)
         (events_of (sync_tickets CONFIG send fuel st)) ->
      Dict.get "updated_since" q = Some (watermark CONFIG "tickets" st) /\
      Dict.get "order_by" q = Some (VStr "updated_at") /\
      Dict.get "order_type" q = Some (VStr "asc") /\
      Dict.get "per_page" q = Some (VInt 100)) /\
  (forall entity u q,
      In (HttpGet u q)
         (events_of (sync_time_filtered CONFIG send fuel entity st)) ->
      Dict.get "per_page" q = Some (VInt 100) /\
      (exists page, Dict.get "page" q = Some page) /\
      forall k, k <> "page" -> k <> "per_page" -> Dict.get k q = None).
Proof.
  split.
  - intros q Hin. rewrite sync_tickets_run in Hin. cbv zeta in Hin.
    unfold events_of at 1 in Hin. cbn [snd] in Hin.
    apply in_app_or in Hin. destruct Hin as [Hin|Hin].
    { repeat (destruct Hin as [Hin|Hin]; [discriminate|]). destruct Hin. }
    set (start := watermark CONFIG "tickets" st) in *.
    assert (HT : Forall (carries (tickets_params start) (tickets_url CONFIG))
                   (events_of (tickets_from CONFIG send fuel start
                                 (started CONFIG "tickets" st)))).
    { unfold tickets_from.
      erewrite bind_ret_run by reflexivity.
      unfold events_of at 1. cbn [snd app].
      apply maintains_events
        with (I := any_state) (Q := fun _ => False)
             (T := Forall (carries (tickets_params start)
                             (tickets_url CONFIG)));
        [|exact Logic.I].
      mapply maintains_cut.
      apply (maintains_listing send any_state _ (tickets_url CONFIG)
               (tickets_params start))
        with (P := fun _ : value => True); try exact Logic.I;
        try (intros; exact Logic.I).
      + intros page. constructor; [|constructor].
        intros _. apply page_query_asks_as.
      + intros st' _. now repeat constructor.
      + intros lu row _.
        apply maintains_weaken with (Q := fun _ => False); [|tauto].
        apply sync_ticket_asks_elsewhere. }
    rewrite Forall_forall in HT.
    destruct (HT _ Hin eq_refl) as (Hper & _ & Hkeys).
    split; [|split; [|split]]; try exact Hper;
      rewrite Hkeys by discriminate; reflexivity.
  - intros entity u q Hin. rewrite sync_time_filtered_run in Hin.
    cbv zeta in Hin. unfold events_of at 1 in Hin. cbn [snd] in Hin.
    destruct Hin as [Hin|Hin]; [discriminate|].
    set (start := watermark CONFIG entity st) in *.
    assert (HT : Forall asks_plainly
                   (events_of (time_filtered_from CONFIG send fuel entity
                                 start (started CONFIG entity st)))).
    { unfold time_filtered_from.
      apply maintains_events
        with (I := any_state) (Q := fun _ => False)
             (T := Forall asks_plainly);
        [|exact Logic.I].
      mapply maintains_seq; [now mapply maintains_get_url|].
      intros u'. mapply maintains_cut.
      apply (maintains_listing send any_state _ u' None)
        with (P := fun _ : unit => True); try exact Logic.I;
        try (intros; exact Logic.I).
      + intros page. constructor; [|constructor].
        apply page_query_asks_as.
      + intros st' _. now repeat constructor.
      + intros [] row _ st' _. split; [exact Logic.I|].
        split; [|intros; exact Logic.I].
        destruct (sync_row_cases entity start row st')
          as [[_ ->]|(record & u0 & old & w & _ & _ & _ & _ & _ & Hr)].
        * constructor.
        * cbv zeta in Hr. rewrite Hr. now repeat constructor. }
    rewrite Forall_forall in HT. exact (HT _ Hin).
Qed.

Lemma listings_are_asked_as_written_witness :
  let q := [("updated_since", VStr "2020-01-01T00:00:00Z");
            ("order_by", VStr "updated_at"); ("order_type", VStr "asc");
            ("per_page", VInt 100); ("page", VInt 1)] in
  let q' := [("per_page", VInt 100); ("page", VInt 1)] in
  let u' := Url (VStr "acme") "/api/v2/agents" [] in
  In (HttpGet (tickets_url Sample.cfg) q)
     (events_of (sync_tickets Sample.cfg Sample.helpdesk 3 [])) /\
  In (HttpGet u' q')
     (events_of (sync_time_filtered Sample.cfg Sample.staff 3 "agents" [])) /\
  Dict.get "updated_since" q = Some (watermark Sample.cfg "tickets" []) /\
  (forall k, k <> "page" -> k <> "per_page" -> Dict.get k q' = None).
Proof.
  intros q q' u'.
  assert (Hin : In (HttpGet (tickets_url Sample.cfg) q)
                   (events_of (sync_tickets Sample.cfg Sample.helpdesk 3 [])))
    by (do 4 right; left; reflexivity).
  assert (Hin' : In (HttpGet u' q')
                    (events_of (sync_time_filtered Sample.cfg Sample.staff 3
                                  "agents" [])))
    by (right; left; reflexivity).
  destruct (listings_are_asked_as_written Sample.cfg Sample.helpdesk 3 [])
    as (Htickets & _).
  destruct (listings_are_asked_as_written Sample.cfg Sample.staff 3 [])
    as (_ & Hplain).
  split; [exact Hin|]. split; [exact Hin'|].
  split; [exact (proj1 (Htickets q Hin))|].
  exact (proj2 (proj2 (Hplain "agents" u' q' Hin'))).
Defined.

(** * Record shaping, further *)

Lemma pair_object_injective key_key value_key (a b : string * value) :
  key_key <> value_key ->
  VDict (Dict.set value_key (snd a) (Dict.set key_key (VStr (fst a)) [])) =
  VDict (Dict.set value_key (snd b) (Dict.set key_key (VStr (fst b)) [])) ->
  a = b.
Proof.
  intros Hne. destruct a as [k v], b as [k' v']. cbn [fst snd Dict.set].
  destruct (String.eqb value_key key_key) eqn:E.
  - apply String.eqb_eq in E. congruence.
  - intros [= -> ->]. reflexivity.
Qed.

(** X6: under two different keys [transform_dict] loses nothing: two
    mappings with the same list of pairs are the same mapping, items and
    order; under one and the same key the names of the fields are lost. *)
Theorem transform_dict_is_injective key_key value_key :
  (key_key <> value_key ->
   forall items items',
     transform_dict (VDict items) key_key value_key =
     transform_dict (VDict items') key_key value_key ->
     items = items') /\
  (forall items,
      transform_dict (VDict items) key_key key_key =
      Ret (VList (map (fun item => VDict [(key_key, snd item)]) items))).
Proof.
  split.
  - intros Hne items. unfold transform_dict.
    induction items as [|a items IH]; intros [|b items'] H;
      try reflexivity; try discriminate.
    injection H as Hab Hrest.
    pose proof (pair_object_injective key_key value_key a b Hne
                  (f_equal VDict Hab)) as <-.
    f_equal. apply IH.
    exact (f_equal (fun l => Ret (VList l)) Hrest).
  - intros items. unfold transform_dict. do 2 f_equal.
    apply map_ext. intros [k v]. cbn [fst snd Dict.set].
    now rewrite String.eqb_refl.
Qed.

Lemma transform_dict_is_injective_witness :
  "name" <> "value" /\
  forall items,
    transform_dict (VDict items) "name" "value" =
    transform_dict (VDict [("a", VInt 1); ("b", VStr "x")]) "name" "value" ->
    items = [("a", VInt 1); ("b", VStr "x")].
Proof.
  assert (Hne : "name" <> "value") by discriminate.
  split; [exact Hne|].
  intros items.
  exact (proj1 (transform_dict_is_injective "name" "value") Hne items
           [("a", VInt 1); ("b", VStr "x")]).
Defined.

Lemma transform_dict_of_other d key_key value_key :
  not_a_mapping d ->
  transform_dict d key_key value_key = Raise (AttributeError "items").
Proof. destruct d; simpl; tauto. Qed.

(** X7: a [custom_fields] that is there but is not a mapping, such as
    null, ends the loop body of either stream in an [AttributeError], with
    nothing written and [STATE] untouched: the row of a time-filtered
    stream that passed the filter is not written and the watermark is not
    advanced, and the ticket is dropped before any of its sub-resources is
    requested. *)
Theorem custom_fields_must_be_a_mapping CONFIG send fuel row d st :
  Dict.get "custom_fields" row = Some d ->
  not_a_mapping d ->
  (forall entity start u,
      Dict.get "updated_at" row = Some u ->
      py_ge u start = Ret true ->
      sync_row entity start tt row st =
      (Raise (AttributeError "items"), st, [])) /\
  (forall start last_updated id,
      Dict.get "id" row = Some id ->
      sync_ticket CONFIG send fuel start last_updated row st =
      (Raise (AttributeError "items"), st, [])).
Proof.
  intros Hcf Hd. split.
  - intros entity start u Hu Hge.
    unfold sync_row, bind, lift, Dict.getitem, Dict.mem.
    rewrite Hu, Hge, Hcf. now rewrite (transform_dict_of_other d _ _ Hd).
  - intros start last_updated id Hid.
    unfold sync_ticket, bind at 1 2 3, lift at 1 2 3, Dict.getitem.
    rewrite Hid.
    rewrite (get_pop_other "custom_fields" "attachments") by discriminate.
    rewrite Hcf. now rewrite (transform_dict_of_other d _ _ Hd).
Qed.

Lemma custom_fields_must_be_a_mapping_witness :
  let start := VStr "2020-01-01T00:00:00Z" in
  let st := [("agents", start)] in
  Dict.get "custom_fields" Sample3.agent3 = Some VNone /\
  not_a_mapping VNone /\
  Dict.get "updated_at" Sample3.agent3 = Some (VStr "2021-05-03T00:00:00Z") /\
  py_ge (VStr "2021-05-03T00:00:00Z") start = Ret true /\
  Dict.get "id" Sample3.agent3 = Some (VInt 3) /\
  sync_row "agents" start tt Sample3.agent3 st =
  (Raise (AttributeError "items"), st, []) /\
  sync_ticket Sample.cfg Sample.helpdesk 3 start start Sample3.agent3 st =
  (Raise (AttributeError "items"), st, []).
Proof.
  intros start st.
  assert (Hcf : Dict.get "custom_fields" Sample3.agent3 = Some VNone)
    by reflexivity.
  assert (Hd : not_a_mapping VNone) by exact Logic.I.
  assert (Hu : Dict.get "updated_at" Sample3.agent3 =
               Some (VStr "2021-05-03T00:00:00Z")) by reflexivity.
  assert (Hge : py_ge (VStr "2021-05-03T00:00:00Z") start = Ret true)
    by reflexivity.
  assert (Hid : Dict.get "id" Sample3.agent3 = Some (VInt 3)) by reflexivity.
  destruct (custom_fields_must_be_a_mapping Sample.cfg Sample.helpdesk 3
              Sample3.agent3 VNone st Hcf Hd) as (Hrow & Hticket).
  split; [exact Hcf|]. split; [exact Hd|]. split; [exact Hu|].
  split; [exact Hge|]. split; [exact Hid|].
  split; [exact (Hrow "agents" start _ Hu Hge)|].
  exact (Hticket start start _ Hid).
Defined.

(** * Tickets, further *)

Section TicketsLogic.

Variable CONFIG : config.
Variable send : url -> dict -> response.
Context (I : dict -> Prop) (T : list event -> Prop) `{!Compositional T}.

Hypothesis T_get : forall u params, T [HttpGet u params].
Hypothesis T_state : forall st, I st -> T [MsgState st].
Hypothesis I_set_page : forall st v, I st -> I (Dict.set "page" v st).
Hypothesis I_pop_page : forall st, I st -> I (Dict.pop "page" st).

Variable start : value.
Hypothesis conversation_ok :
  forall subrow,
    maintains I T (conversation_row start tt subrow) (fun _ => True).

Lemma maintains_sync_ticket_rows fuel last_updated row :
  maintains I T (sync_ticket CONFIG send fuel start last_updated row)
            (fun _ => False).
Proof.
  unfold sync_ticket.
  do 3 (mapply maintains_seq; [now mapply maintains_lift|]; intro).
  mapply maintains_cut.
  now apply maintains_list_sub_resource.
Qed.

Lemma maintains_tickets_from_rows fuel :
  maintains I T (tickets_from CONFIG send fuel start) (fun _ => False).
Proof.
  unfold tickets_from.
  mapply maintains_seq; [now mapply maintains_get_url|]. intros u.
  mapply maintains_cut.
  eapply maintains_gen_request with (P := fun _ => True);
    try exact _; auto.
  intros lu row _.
  apply maintains_weaken with (Q := fun _ => False); [|tauto].
  apply maintains_sync_ticket_rows.
Qed.

End TicketsLogic.

(** X8: no conversation record written by [sync_tickets] has an
    [attachments] or a [body] field; every other field of the conversation
    is written as the API gave it. *)
Theorem conversations_are_stripped CONFIG send fuel st record :
  (In (MsgRecord "conversations" record)
      (events_of (sync_tickets CONFIG send fuel st)) ->
   Dict.get "attachments" record = None /\ Dict.get "body" record = None) /\
  (forall start subrow st',
      In (MsgRecord "conversations" record)
         (events_of (conversation_row start tt subrow st')) ->
      forall k, k <> "attachments" -> k <> "body" ->
                Dict.get k record = Dict.get k subrow).
Proof.
  split.
  - intros Hin. rewrite sync_tickets_run in Hin. cbv zeta in Hin.
    unfold events_of at 1 in Hin. cbn [snd] in Hin.
    apply in_app_or in Hin. destruct Hin as [Hin|Hin].
    { repeat (destruct Hin as [Hin|Hin]; [discriminate|]). destruct Hin. }
    assert (HT : Forall stripped
                   (events_of
                      (tickets_from CONFIG send fuel
                         (watermark CONFIG "tickets" st)
                         (started CONFIG "tickets" st)))).
    { apply maintains_events
        with (I := any_state) (Q := fun _ => False) (T := Forall stripped);
        [|exact Logic.I].
      apply maintains_tickets_from_rows; try exact _;
        try (intros; exact Logic.I).
      - intros u params. now repeat constructor.
      - intros st' _. now repeat constructor.
      - intros subrow st' _. split; [exact Logic.I|].
        split; [|intros; exact Logic.I].
        unfold conversation_row.
        destruct (write_if_recent_cases "conversations"
                    (watermark CONFIG "tickets" st)
                    (Dict.pop "body" (Dict.pop "attachments" subrow)) st')
          as [_ [-> | [_ ->]]]; [constructor|].
        constructor; [|constructor]. intros _. split.
        + rewrite get_pop_other by discriminate. apply get_pop_same.
        + apply get_pop_same. }
    rewrite Forall_forall in HT. exact (HT _ Hin eq_refl).
  - intros start subrow st' Hin k Hatt Hbody. unfold conversation_row in Hin.
    destruct (write_if_recent_cases "conversations" start
                (Dict.pop "body" (Dict.pop "attachments" subrow)) st')
      as [_ [Hev | [_ Hev]]]; rewrite Hev in Hin; [destruct Hin|].
    destruct Hin as [[= <-]|[]].
    now rewrite !get_pop_other.
Qed.

Lemma conversations_are_stripped_witness :
  let record := [("id", VInt 70);
                 ("updated_at", VStr "2021-03-01T10:00:00Z")] in
  In (MsgRecord "conversations" record)
     (events_of (sync_tickets Sample.cfg Sample3.talkative 3 [])) /\
  In (MsgRecord "conversations" record)
     (events_of (conversation_row (VStr "2020-01-01T00:00:00Z") tt
                   Sample3.conversation [])) /\
  Dict.get "attachments" record = None /\ Dict.get "body" record = None /\
  Dict.get "id" record = Dict.get "id" Sample3.conversation.
Proof.
  intros record.
  assert (Hin : In (MsgRecord "conversations" record)
                   (events_of (sync_tickets Sample.cfg Sample3.talkative 3
                                 []))) by (do 6 right; left; reflexivity).
  assert (Hin' : In (MsgRecord "conversations" record)
                    (events_of (conversation_row
                                  (VStr "2020-01-01T00:00:00Z") tt
                                  Sample3.conversation [])))
    by (left; reflexivity).
  destruct (conversations_are_stripped Sample.cfg Sample3.talkative 3 []
              record) as (Hrun & Hrow).
  split; [exact Hin|]. split; [exact Hin'|].
  split; [exact (proj1 (Hrun Hin))|]. split; [exact (proj2 (Hrun Hin))|].
  apply (Hrow _ _ _ Hin'); discriminate.
Defined.

Lemma Forall_anything {X} (l : list X) : Forall (fun _ => True) l.
Proof. induction l; constructor; auto. Qed.

Lemma list_sub_resource_never_returns CONFIG send fuel entity row body st :
  outcome_of (list_sub_resource CONFIG send fuel entity row body st) <> Ret tt.
Proof.
  destruct (maintains_list_sub_resource CONFIG send any_state
              (Forall (fun _ => True)))
    with (fuel := fuel) (entity := entity) (row := row) (body := body)
         (st := st)
    as (_ & _ & HQ); try exact Logic.I; try (intros; exact Logic.I);
    try (intros; apply Forall_anything).
  - intros subrow st' _. split; [exact Logic.I|].
    split; [apply Forall_anything | intros; exact Logic.I].
  - intros H. exact (HQ tt H).
Qed.

(** X9: an optional sub-resource block, the [try] around the listing of
    satisfaction ratings or time entries, ends normally exactly when the
    listing raised [HTTPError] with status 403, with what the listing had
    written and nothing more; in every other case it ends as the listing
    did, the exception passed on. *)
Theorem optional_block_ends_well_only_on_403 CONFIG send fuel entity row
    body st :
  let listing := list_sub_resource CONFIG send fuel entity row body st in
  let block :=
    try_except_HTTPError
      (list_sub_resource CONFIG send fuel entity row body) skip_if_403 st in
  (outcome_of block = Ret tt <-> outcome_of listing = Raise (HTTPError 403)) /\
  state_of block = state_of listing /\
  events_of block = events_of listing /\
  (outcome_of listing <> Raise (HTTPError 403) ->
   outcome_of block = outcome_of listing).
Proof.
  intros listing block.
  pose proof (list_sub_resource_never_returns CONFIG send fuel entity row
                body st) as Hnever.
  fold listing in Hnever. unfold block, try_except_HTTPError.
  fold listing. destruct listing as [[r st1] ev1].
  unfold outcome_of, state_of, events_of in *. cbn [fst snd] in *.
  destruct r as [[]|e|]; cbn [fst snd].
  - now elim Hnever.
  - destruct e as [code| | | |]; cbn [fst snd];
      try (repeat split; try discriminate; auto; fail).
    unfold skip_if_403, ret, raise.
    destruct (Z.eqb_spec code 403) as [->|Hne]; cbn; rewrite app_nil_r.
    + repeat split; auto. now intros [].
    + repeat split; auto; try discriminate. intros [= H]. contradiction.
  - repeat split; try discriminate; auto.
Qed.

Lemma optional_block_ends_well_only_on_403_witness :
  let listing :=
    list_sub_resource Sample.cfg Sample.helpdesk 3 "satisfaction_ratings"
      Sample.ticket7 (rating_row (VStr "2020-01-01T00:00:00Z")) [] in
  let block :=
    try_except_HTTPError
      (list_sub_resource Sample.cfg Sample.helpdesk 3 "satisfaction_ratings"
         Sample.ticket7 (rating_row (VStr "2020-01-01T00:00:00Z")))
      skip_if_403 [] in
  outcome_of listing = Raise (HTTPError 403) /\ outcome_of block = Ret tt.
Proof.
  intros listing block.
  assert (H : outcome_of listing = Raise (HTTPError 403)) by reflexivity.
  split; [exact H|].
  exact (proj2 (proj1 (optional_block_ends_well_only_on_403 Sample.cfg
                         Sample.helpdesk 3 "satisfaction_ratings"
                         Sample.ticket7
                         (rating_row (VStr "2020-01-01T00:00:00Z")) []))
           H).
Defined.

(** * The loop over the streams *)

(** X10: the loop of [do_sync], taken over a list of streams: with a
    marker naming a stream in the state, every stream before the first one
    of that name is passed over, with nothing written and the state
    untouched, and the loop goes on from that stream. *)
Theorem loop_resumes_at_the_marked_stream fuel pre s post st :
  Dict.get "active_stream" st = Some (VStr (name s)) ->
  (forall s', In s' pre -> name s' <> name s) ->
  for_streams fuel (pre ++ s :: post) st = for_streams fuel (s :: post) st.
Proof.
  intros Hmarker Hpre. induction pre as [|s' pre IH]; [reflexivity|].
  change (for_streams fuel ((s' :: pre) ++ s :: post) st)
    with (bind (sync_stream fuel s')
               (fun _ => for_streams fuel (pre ++ s :: post)) st).
  assert (Hskip : sync_stream fuel s' st = (Ret tt, st, [])).
  { apply sync_stream_skips with (marked := name s); [exact Hmarker|].
    intros Heq. apply (Hpre s'); [now left | now symmetry]. }
  erewrite bind_ret_run by exact Hskip.
  rewrite IH by (intros s'' Hin; apply Hpre; now right).
  cbn [app]. symmetry. apply run_eta.
Qed.

Lemma loop_resumes_at_the_marked_stream_witness :
  let st := [("active_stream", VStr "roles")] in
  let tickets := mkStream "tickets" (sync_tickets Sample.cfg Sample.staff) in
  let agents :=
    mkStream "agents"
      (fun fuel => sync_time_filtered Sample.cfg Sample.staff fuel "agents") in
  let roles :=
    mkStream "roles"
      (fun fuel => sync_time_filtered Sample.cfg Sample.staff fuel "roles") in
  Dict.get "active_stream" st = Some (VStr (name roles)) /\
  (forall s', In s' [tickets; agents] -> name s' <> name roles) /\
  for_streams 3 ([tickets; agents] ++ roles :: []) st =
  for_streams 3 (roles :: []) st.
Proof.
  intros st tickets agents roles.
  assert (Hmarker : Dict.get "active_stream" st = Some (VStr (name roles)))
    by reflexivity.
  assert (Hpre : forall s', In s' [tickets; agents] ->
                            name s' <> name roles).
  { intros s' [<-|[<-|[]]]; discriminate. }
  split; [exact Hmarker|]. split; [exact Hpre|].
  exact (loop_resumes_at_the_marked_stream 3 [tickets; agents] roles [] st
           Hmarker Hpre).
Defined.

Lemma marker_is_set_other n k v st :
  k <> "active_stream" -> marker_is n st -> marker_is n (Dict.set k v st).
Proof. intros Hne H. unfold marker_is. now rewrite get_set_other by auto. Qed.

Lemma marker_is_pop_other n k st :
  k <> "active_stream" -> marker_is n st -> marker_is n (Dict.pop k st).
Proof. intros Hne H. unfold marker_is. now rewrite get_pop_other by auto. Qed.

Lemma marker_is_started n CONFIG entity st :
  entity <> "active_stream" ->
  marker_is n st -> marker_is n (started CONFIG entity st).
Proof.
  intros Hne H. unfold started.
  destruct (Dict.mem entity st); [exact H|]. now apply marker_is_set_other.
Qed.

Lemma sync_tickets_keeps_marker n CONFIG send fuel st :
  marker_is n st ->
  let r := sync_tickets CONFIG send fuel st in
  marker_is n (state_of r) /\ Forall (marked n) (events_of r) /\
  outcome_of r <> Ret tt.
Proof.
  intros Hst r. unfold r. rewrite sync_tickets_run. cbv zeta.
  destruct (maintains_tickets_from_rows CONFIG send (marker_is n)
              (Forall (marked n)))
    with (start := watermark CONFIG "tickets" st) (fuel := fuel)
         (st := started CONFIG "tickets" st)
    as (HI & HT & HQ).
  - intros u params. now repeat constructor.
  - intros st' Hst'. now repeat constructor.
  - intros st' v. apply marker_is_set_other. discriminate.
  - intros st'. apply marker_is_pop_other. discriminate.
  - intros subrow st' Hst'. unfold conversation_row.
    destruct (write_if_recent_cases "conversations"
                (watermark CONFIG "tickets" st)
                (Dict.pop "body" (Dict.pop "attachments" subrow)) st')
      as [-> [-> | [_ ->]]]; (split; [exact Hst'|]);
      (split; [now repeat constructor | intros; exact Logic.I]).
  - apply marker_is_started; [discriminate | exact Hst].
  - split; [exact HI|]. split.
    + apply Forall_app. split; [now repeat constructor | exact HT].
    + unfold outcome_of at 1. simpl. intros H. exact (HQ tt H).
Qed.

Lemma sync_time_filtered_keeps_marker n CONFIG send fuel entity st :
  entity <> "active_stream" ->
  marker_is n st ->
  let r := sync_time_filtered CONFIG send fuel entity st in
  marker_is n (state_of r) /\ Forall (marked n) (events_of r) /\
  outcome_of r <> Ret tt.
Proof.
  intros Hne Hst r. unfold r. rewrite sync_time_filtered_run. cbv zeta.
  destruct (maintains_time_filtered_from CONFIG send (marker_is n)
              (Forall (marked n)))
    with (fuel := fuel) (entity := entity)
         (start := watermark CONFIG entity st)
         (st := started CONFIG entity st)
    as (HI & HT & HQ).
  - intros u params. now repeat constructor.
  - intros st' Hst'. now repeat constructor.
  - intros st' v. apply marker_is_set_other. discriminate.
  - intros st'. apply marker_is_pop_other. discriminate.
  - intros row st' Hst'.
    destruct (sync_row_cases entity (watermark CONFIG entity st) row st')
      as [[-> ->]|(record & u & old & w & _ & _ & _ & _ & _ & Hr)].
    + split; [exact Hst'|]. split; [constructor | intros; exact Logic.I].
    + cbv zeta in Hr. rewrite Hr.
      assert (H' : marker_is n (Dict.set entity w st'))
        by now apply marker_is_set_other.
      split; [exact H'|].
      split; [now repeat constructor | intros; exact Logic.I].
  - now apply marker_is_started.
  - split; [exact HI|]. split.
    + constructor; [exact Logic.I | exact HT].
    + unfold outcome_of at 1. simpl. intros H. exact (HQ tt H).
Qed.

Lemma sync_stream_run fuel s st :
  py_eq (Dict.get_default "active_stream" (VStr (name s)) st)
        (VStr (name s)) = true ->
  sync_stream fuel s st =
  let st1 := Dict.set "active_stream" (VStr (name s)) st in
  let r1 := sync s fuel st1 in
  match outcome_of r1 with
  | Ret _ =>
      (Ret tt, Dict.pop "active_stream" (state_of r1),
       MsgState st1 :: events_of r1 ++
       [MsgState (Dict.pop "active_stream" (state_of r1))])
  | Raise e => (Raise e, state_of r1, MsgState st1 :: events_of r1)
  | OutOfFuel => (OutOfFuel, state_of r1, MsgState st1 :: events_of r1)
  end.
Proof.
  intros Hsame. unfold sync_stream, bind at 1, read_STATE at 1.
  rewrite Hsame. cbn [negb].
  unfold bind, modify_STATE, write_state, read_STATE, emit. simpl.
  destruct (sync s fuel _) as [[o st2] ev2].
  destruct o; reflexivity.
Qed.

Lemma sync_stream_marks_first fuel s st :
  Dict.get "active_stream" st = None \/ marker_is (name s) st ->
  (forall st1,
      marker_is (name s) st1 ->
      marker_is (name s) (state_of (sync s fuel st1)) /\
      Forall (marked (name s)) (events_of (sync s fuel st1)) /\
      outcome_of (sync s fuel st1) <> Ret tt) ->
  let r := sync_stream fuel s st in
  (exists rest,
      events_of r =
      MsgState (Dict.set "active_stream" (VStr (name s)) st) :: rest) /\
  outcome_of r <> Ret tt /\
  Forall (marked (name s)) (events_of r) /\
  marker_is (name s) (state_of r).
Proof.
  intros Hmarker Hsync r.
  assert (Hsame : py_eq (Dict.get_default "active_stream" (VStr (name s)) st)
                        (VStr (name s)) = true).
  { unfold Dict.get_default.
    destruct Hmarker as [-> | ->]; simpl; apply String.eqb_refl. }
  unfold r. rewrite (sync_stream_run fuel s st Hsame). cbv zeta.
  set (st1 := Dict.set "active_stream" (VStr (name s)) st).
  assert (H1 : marker_is (name s) st1) by apply get_set_same.
  destruct (Hsync st1 H1) as (HI & HT & HQ).
  destruct (sync s fuel st1) as [[o st2] ev2].
  unfold outcome_of, state_of, events_of in *. cbn [fst snd] in *.
  destruct o as [[]|e|]; [now elim HQ| |]; cbn [fst snd];
    (split; [eexists; reflexivity|]);
    (split; [discriminate|]);
    (split; [constructor; [exact H1 | exact HT] | exact HI]).
Qed.

(** X11: the body of the loop of [do_sync], for each of the five
    configured streams and a state whose marker is absent or names the
    stream: the first thing written is the state with the stream marked
    active; the body does not return, every state written afterwards still
    names the stream, and so does [STATE] at the end. *)
Theorem stream_is_marked_active_first CONFIG send fuel s st :
  In s (STREAMS CONFIG send) ->
  Dict.get "active_stream" st = None \/ marker_is (name s) st ->
  let r := sync_stream fuel s st in
  (exists rest,
      events_of r =
      MsgState (Dict.set "active_stream" (VStr (name s)) st) :: rest) /\
  outcome_of r <> Ret tt /\
  Forall (marked (name s)) (events_of r) /\
  marker_is (name s) (state_of r).
Proof.
  intros Hin Hmarker. apply sync_stream_marks_first; [exact Hmarker|].
  intros st1 H1.
  destruct Hin as [<-|[<-|[<-|[<-|[<-|[]]]]]]; cbn [name sync] in *;
    [now apply sync_tickets_keeps_marker | ..];
    apply sync_time_filtered_keeps_marker; try exact H1; discriminate.
Qed.

Lemma stream_is_marked_active_first_witness :
  let s :=
    mkStream "agents"
      (fun fuel => sync_time_filtered Sample.cfg Sample.staff fuel "agents") in
  let r := sync_stream 3 s [] in
  In s (STREAMS Sample.cfg Sample.staff) /\
  (Dict.get "active_stream" [] = None \/ marker_is (name s) []) /\
  (exists rest,
      events_of r = MsgState [("active_stream", VStr "agents")] :: rest) /\
  Forall (marked "agents") (events_of r) /\
  marker_is "agents" (state_of r).
Proof.
  intros s r.
  assert (Hin : In s (STREAMS Sample.cfg Sample.staff))
    by (right; left; reflexivity).
  assert (Hmarker : Dict.get "active_stream" [] = None \/
                    marker_is (name s) []) by (left; reflexivity).
  destruct (stream_is_marked_active_first Sample.cfg Sample.staff 3 s []
              Hin Hmarker) as (Hfirst & _ & Hall & Hend).
  split; [exact Hin|]. split; [exact Hmarker|].
  split; [exact Hfirst|]. split; [exact Hall | exact Hend].
Defined.

(** * The transport *)

Module TransportFacts.
Import Transport.

Section Client.

Variable user_agent : option value.
Variable server : nat -> url -> dict -> reply.
Variable int : string -> option Z.

Variable u : url.
Variable params : option dict.

Let q : dict := or_empty params.
Let sent : step := Sent u q user_agent.

Lemma attempt_transient again n f :
  transient (server n u q) = Some f ->
  attempt user_agent server int again u params n = (Failed f, S n, [sent]) /\
  is_RequestException f = true /\ giveup f = false.
Proof.
  unfold transient, attempt. fold q. fold sent.
  destruct (server n u q) as [resp|]; [|intros [= <-]; auto].
  destruct (retry_after resp); [discriminate|]. unfold giveup.
  destruct (Z.leb_spec 500 (status resp)), (Z.ltb_spec (status resp) 600),
    (Z.leb_spec 400 (status resp)), (Z.ltb_spec (status resp) 500);
    cbn; try discriminate; try lia; intros [= <-]; cbn;
    destruct (Z.leb_spec 400 (status resp)),
      (Z.ltb_spec (status resp) 500); cbn; auto; lia.
Qed.

Lemma attempt_settles again n r :
  settles (server n u q) = Some r ->
  attempt user_agent server int again u params n = (r, S n, [sent]) /\
  forall f, r = Failed f -> is_RequestException f = true /\ giveup f = true.
Proof.
  unfold settles, attempt. fold q. fold sent.
  destruct (server n u q) as [resp|]; [|discriminate].
  destruct (retry_after resp); [discriminate|].
  destruct (Z.leb_spec 500 (status resp)), (Z.ltb_spec (status resp) 600),
    (Z.leb_spec 400 (status resp)), (Z.ltb_spec (status resp) 500);
    cbn; try discriminate; try lia; intros [= <-];
    (split; [reflexivity|]); intros f [= <-]; cbn;
    destruct (Z.leb_spec 400 (status resp)),
      (Z.ltb_spec (status resp) 500); cbn; auto; lia.
Qed.

Lemma attempt_throttled again n seconds :
  throttles int (server n u q) seconds ->
  attempt user_agent server int again u params n =
  (result_of (again (S n)), served (again (S n)),
   sent :: Slept seconds :: steps_of (again (S n))).
Proof.
  intros (resp & header & Hr & Hh & Hint & Hpos).
  unfold attempt. fold q. fold sent. rewrite Hr, Hh, Hint.
  replace (seconds <? 0)%Z with false by (symmetry; apply Z.ltb_ge; lia).
  now destruct (again (S n)) as [[r n'] ev].
Qed.

(** [j] failing tries and a try that settles, with [k >= j] tries left. *)
Lemma retried_until_settled again r :
  forall j k n,
    (j <= k)%nat ->
    (forall i, (i < j)%nat -> transient (server (n + i) u q) <> None) ->
    settles (server (n + j) u q) = Some r ->
    on_exception k (attempt user_agent server int again u params) n =
    (r, S (n + j), tries sent j).
Proof.
  induction j as [|j IH]; intros k n Hk Hfail Hsettle.
  - rewrite Nat.add_0_r in *.
    destruct (attempt_settles again n r Hsettle) as [Hrun Hgive].
    destruct k; cbn [on_exception]; rewrite Hrun; destruct r as [a|f|];
      try reflexivity; destruct (Hgive f eq_refl) as [-> Hg];
      try reflexivity.
    now rewrite Hg.
  - destruct k as [|k]; [lia|].
    destruct (transient (server n u q)) as [f|] eqn:Hf.
    2:{ exfalso. apply (Hfail 0%nat); [lia|]. now rewrite Nat.add_0_r. }
    destruct (attempt_transient again n f Hf) as (Hrun & Hre & Hg).
    cbn [on_exception]. rewrite Hrun, Hre, Hg.
    rewrite (IH k (S n)); [| lia | |].
    + cbn [app tries]. now rewrite Nat.add_succ_r.
    + intros i Hi. replace (S n + i)%nat with (n + S i)%nat by lia.
      apply Hfail. lia.
    + now replace (S n + j)%nat with (n + S j)%nat by lia.
Qed.

(** Every try fails, down to the last. *)
Lemma retried_until_exhausted again :
  forall k n f,
    (forall i, (i < k)%nat -> transient (server (n + i) u q) <> None) ->
    transient (server (n + k) u q) = Some f ->
    on_exception k (attempt user_agent server int again u params) n =
    (Failed f, S (n + k), tries sent k).
Proof.
  induction k as [|k IH]; intros n f Hfail Hlast.
  - rewrite Nat.add_0_r in *.
    destruct (attempt_transient again n f Hlast) as (Hrun & Hre & Hg).
    cbn [on_exception]. now rewrite Hrun, Hre.
  - destruct (transient (server n u q)) as [f0|] eqn:Hf.
    2:{ exfalso. apply (Hfail 0%nat); [lia|]. now rewrite Nat.add_0_r. }
    destruct (attempt_transient again n f0 Hf) as (Hrun & Hre & Hg).
    cbn [on_exception]. rewrite Hrun, Hre, Hg.
    rewrite (IH (S n) f).
    + cbn [app tries]. now rewrite Nat.add_succ_r.
    + intros i Hi. replace (S n + i)%nat with (n + S i)%nat by lia.
      apply Hfail. lia.
    + now replace (S n + k)%nat with (n + S k)%nat by lia.
Qed.

End Client.

Lemma transient_is_retried rp f :
  transient rp = Some f -> is_RequestException f = true /\ giveup f = false.
Proof.
  unfold transient. destruct rp as [resp|]; [|intros [= <-]; auto].
  destruct (retry_after resp); [discriminate|].
  destruct (Z.leb_spec 500 (status resp)), (Z.ltb_spec (status resp) 600);
    cbn; try discriminate. intros [= <-]. cbn.
  destruct (Z.leb_spec 400 (status resp)), (Z.ltb_spec (status resp) 500);
    cbn; auto; lia.
Qed.

Lemma settled_is_final rp r :
  settles rp = Some r ->
  forall k (target : T answer) n n1 ev1,
    target n = (r, n1, ev1) ->
    on_exception k target n = (r, n1, ev1).
Proof.
  intros Hs k target n n1 ev1 Hrun.
  destruct r as [a|f|].
  - destruct k; cbn [on_exception]; now rewrite Hrun.
  - assert (Hg : is_RequestException f = true /\ giveup f = true).
    { unfold settles in Hs. destruct rp as [resp|]; [|discriminate].
      destruct (retry_after resp); [discriminate|].
      destruct (Z.leb_spec 400 (status resp)),
        (Z.ltb_spec (status resp) 500),
        (Z.leb_spec 500 (status resp)), (Z.ltb_spec (status resp) 600);
        cbn in Hs; try discriminate; injection Hs as <-; cbn;
        destruct (Z.leb_spec 400 (status resp)),
          (Z.ltb_spec (status resp) 500); cbn; auto; lia. }
    destruct Hg as [Hre Hg].
    destruct k; cbn [on_exception]; now rewrite Hrun, Hre, ?Hg.
  - unfold settles in Hs. destruct rp as [resp|]; [|discriminate].
    destruct (retry_after resp); [discriminate|].
    destruct ((400 <=? status resp)%Z && (status resp <? 500)%Z)%bool;
      [discriminate|].
    destruct ((500 <=? status resp)%Z && (status resp <? 600)%Z)%bool;
      discriminate.
Qed.

(** X12: [j] tries in a row that fail for want of a response or with a
    5xx status are each followed by a wait and another try, as long as
    [j] is below [max_tries]; the reply that then settles the call, a good
    response or a 4xx status, is what the call ends with, after [j + 1]
    requests.  With [j = 0]: a 4xx status is raised at the first try, and
    not tried again. *)
Theorem failed_tries_are_made_again user_agent server int fuel u params n j
    r :
  (j < max_tries)%nat ->
  (forall i, (i < j)%nat ->
             transient (server (n + i)%nat u (or_empty params)) <> None) ->
  settles (server (n + j)%nat u (or_empty params)) = Some r ->
  request user_agent server int (S fuel) u params n =
  (r, S (n + j), tries (Sent u (or_empty params) user_agent) j).
Proof.
  intros Hj Hfail Hsettle. cbn [request].
  apply retried_until_settled; auto. unfold max_tries in *. lia.
Qed.

Lemma failed_tries_are_made_again_witness :
  let sent := Sent Sample.companies_url [] None in
  (2 < max_tries)%nat /\
  (forall i, (i < 2)%nat ->
             transient (shaky (0 + i)%nat Sample.companies_url (or_empty None))
             <> None) /\
  settles (shaky (0 + 2)%nat Sample.companies_url (or_empty None)) =
  Some (Done ok) /\
  request None shaky plain_int 1 Sample.companies_url None 0 =
  (Done ok, 3%nat, [sent; BackedOff; sent; BackedOff; sent]).
Proof.
  intros sent.
  assert (Hj : (2 < max_tries)%nat) by (unfold max_tries; lia).
  assert (Hfail : forall i, (i < 2)%nat ->
             transient (shaky (0 + i)%nat Sample.companies_url
                          (or_empty None)) <> None).
  { intros [|[|i]] Hi; try discriminate. lia. }
  assert (Hsettle : settles (shaky (0 + 2)%nat Sample.companies_url
                               (or_empty None)) = Some (Done ok))
    by reflexivity.
  split; [exact Hj|]. split; [exact Hfail|]. split; [exact Hsettle|].
  exact (failed_tries_are_made_again None shaky plain_int 0
           Sample.companies_url None 0 2 (Done ok) Hj Hfail Hsettle).
Defined.

(** X13: when [max_tries] tries in a row fail for want of a response or
    with a 5xx status, the call raises the failure of the last of them,
    after exactly five requests and four waits; no sixth request is
    made. *)
Theorem five_failed_tries_end_the_call user_agent server int fuel u params
    n f :
  (forall i, (i < max_tries - 1)%nat ->
             transient (server (n + i)%nat u (or_empty params)) <> None) ->
  transient (server (n + (max_tries - 1))%nat u (or_empty params)) =
  Some f ->
  let r := request user_agent server int (S fuel) u params n in
  r = (Failed f, (n + max_tries)%nat,
       tries (Sent u (or_empty params) user_agent) (max_tries - 1)) /\
  sends (steps_of r) = max_tries.
Proof.
  intros Hfail Hlast r. unfold r. cbn [request].
  rewrite (retried_until_exhausted user_agent server int u params _
             (max_tries - 1) n f Hfail Hlast).
  split; [|reflexivity]. unfold max_tries. f_equal. f_equal. lia.
Qed.

Lemma five_failed_tries_end_the_call_witness :
  let r := request None down plain_int 1 Sample.companies_url None 0 in
  (forall i, (i < max_tries - 1)%nat ->
             transient (down (0 + i)%nat Sample.companies_url (or_empty None))
             <> None) /\
  transient (down (0 + (max_tries - 1))%nat Sample.companies_url
               (or_empty None)) = Some (BadStatus 503) /\
  result_of r = Failed (BadStatus 503) /\ served r = 5%nat /\
  sends (steps_of r) = 5%nat.
Proof.
  intros r.
  assert (Hfail : forall i, (i < max_tries - 1)%nat ->
             transient (down (0 + i)%nat Sample.companies_url
                          (or_empty None)) <> None)
    by (intros; discriminate).
  assert (Hlast : transient (down (0 + (max_tries - 1))%nat
                               Sample.companies_url (or_empty None)) =
                  Some (BadStatus 503)) by reflexivity.
  destruct (five_failed_tries_end_the_call None down plain_int 0
              Sample.companies_url None 0 _ Hfail Hlast) as [Hrun Hsends].
  split; [exact Hfail|]. split; [exact Hlast|].
  unfold r. rewrite Hrun. repeat split.
Defined.

(** The call after [k] throttled replies. *)
Lemma throttled_then_settled user_agent server int u seconds r extra :
  forall k params n,
    (forall i, (i < k)%nat ->
               throttles int (server (n + i)%nat u (or_empty params))
                 (seconds (n + i)%nat)) ->
    settles (server (n + k)%nat u (or_empty params)) = Some r ->
    request user_agent server int (S k + extra) u params n =
    (r, S (n + k),
     throttled (Sent u (or_empty params) user_agent) seconds n k).
Proof.
  induction k as [|k IH]; intros params n Hthrottled Hsettle.
  - change (1 + extra)%nat with (S extra).
    apply (failed_tries_are_made_again user_agent server int extra u params
             n 0 r); [unfold max_tries; lia | intros i Hi; lia | exact Hsettle].
  - change (S (S k) + extra)%nat with (S (S k + extra)).
    cbn [request].
    assert (Hrun : attempt user_agent server int
                     (request user_agent server int (S k + extra) u
                        (Some (or_empty params))) u params n =
                   (r, S (n + S k),
                    throttled (Sent u (or_empty params) user_agent) seconds
                      n (S k))).
    { rewrite (attempt_throttled user_agent server int u params _ n
                 (seconds n)).
      - rewrite (IH (Some (or_empty params)) (S n)).
        + cbn [result_of served steps_of fst snd or_empty throttled].
          now rewrite Nat.add_succ_r.
        + intros i Hi. cbn [or_empty].
          replace (S n + i)%nat with (n + S i)%nat by lia.
          apply Hthrottled. lia.
        + cbn [or_empty].
          now replace (S n + k)%nat with (n + S k)%nat by lia.
      - specialize (Hthrottled 0%nat). rewrite Nat.add_0_r in Hthrottled.
        apply Hthrottled. lia. }
    exact (settled_is_final _ r Hsettle _ _ n _ _ Hrun).
Qed.

(** X14: a reply with a [Retry-After] header is neither returned nor
    raised, whatever its status: the client sleeps the seconds it names and
    sends the same request again, any number of times in a row, and ends
    with the reply that settles the call; there is no wait of [backoff]
    in between and [max_tries] does not bound the number of requests. *)
Theorem throttled_requests_are_sent_again user_agent server int u params
    seconds r extra k n :
  (forall i, (i < k)%nat ->
             throttles int (server (n + i)%nat u (or_empty params))
               (seconds (n + i)%nat)) ->
  settles (server (n + k)%nat u (or_empty params)) = Some r ->
  let run := request user_agent server int (S k + extra) u params n in
  run = (r, S (n + k),
         throttled (Sent u (or_empty params) user_agent) seconds n k) /\
  sends (steps_of run) = S k /\
  ~ In BackedOff (steps_of run).
Proof.
  intros Hthrottled Hsettle run. unfold run.
  rewrite (throttled_then_settled user_agent server int u seconds r extra k
             params n Hthrottled Hsettle).
  split; [reflexivity|]. cbn [steps_of snd]. clear.
  revert n. induction k as [|k IH]; intros n; cbn.
  - split; [reflexivity|]. intros [H|[]]. discriminate.
  - destruct (IH (S n)) as [Hs Hb]. split; [now rewrite Hs|].
    intros [H|[H|H]]; try discriminate. now apply Hb.
Qed.

Lemma throttled_requests_are_sent_again_witness :
  let sent := Sent Sample.companies_url [] None in
  let seconds := fun n : nat => match n with 0%nat => 5%Z | _ => 2%Z end in
  (forall i, (i < 2)%nat ->
             throttles plain_int
               (busy (0 + i)%nat Sample.companies_url (or_empty None))
               (seconds (0 + i)%nat)) /\
  settles (busy (0 + 2)%nat Sample.companies_url (or_empty None)) =
  Some (Done ok) /\
  request None busy plain_int 3 Sample.companies_url None 0 =
  (Done ok, 3%nat, [sent; Slept 5; sent; Slept 2; sent]).
Proof.
  intros sent seconds.
  assert (Hthrottled : forall i, (i < 2)%nat ->
             throttles plain_int
               (busy (0 + i)%nat Sample.companies_url (or_empty None))
               (seconds (0 + i)%nat)).
  { intros [|[|i]] Hi; [| |lia].
    - exists (Answer (Some "5") 429 []), "5".
      repeat split; cbv; discriminate.
    - exists (Answer (Some "2") 429 []), "2".
      repeat split; cbv; discriminate. }
  assert (Hsettle : settles (busy (0 + 2)%nat Sample.companies_url
                               (or_empty None)) = Some (Done ok))
    by reflexivity.
  split; [exact Hthrottled|]. split; [exact Hsettle|].
  exact (proj1 (throttled_requests_are_sent_again None busy plain_int
                  Sample.companies_url None seconds (Done ok) 0 2 0
                  Hthrottled Hsettle)).
Defined.

(** X15: a [Retry-After] header that [int] does not read, such as a date,
    or that names a negative number of seconds, ends the call in
    [ValueError] after the one request, whatever the status of the reply;
    it is not a [RequestException], so it is not tried again. *)
Theorem unreadable_retry_after_is_fatal user_agent server int fuel u params
    n resp header :
  server n u (or_empty params) = Answered resp ->
  retry_after resp = Some header ->
  int header = None \/ (exists seconds, int header = Some seconds /\
                                       (seconds < 0)%Z) ->
  request user_agent server int (S fuel) u params n =
  (Failed ValueError, S n, [Sent u (or_empty params) user_agent]).
Proof.
  intros Hr Hh Hint. cbn [request].
  assert (Hrun : attempt user_agent server int
                   (request user_agent server int fuel u
                      (Some (or_empty params))) u params n =
                 (Failed ValueError, S n,
                  [Sent u (or_empty params) user_agent])).
  { unfold attempt. rewrite Hr, Hh.
    destruct Hint as [-> | (seconds & -> & Hneg)]; [reflexivity|].
    now rewrite (proj2 (Z.ltb_lt _ _) Hneg). }
  unfold max_tries. cbn [Nat.sub on_exception]. now rewrite Hrun.
Qed.

Lemma unreadable_retry_after_is_fatal_witness :
  let header := "Wed, 21 Oct 2015 07:28:00 GMT" in
  dated 0 Sample.companies_url (or_empty None) =
  Answered (Answer (Some header) 503 []) /\
  plain_int header = None /\
  request None dated plain_int 1 Sample.companies_url None 0 =
  (Failed ValueError, 1%nat, [Sent Sample.companies_url [] None]).
Proof.
  intros header.
  assert (Hr : dated 0 Sample.companies_url (or_empty None) =
               Answered (Answer (Some header) 503 [])) by reflexivity.
  assert (Hint : plain_int header = None) by reflexivity.
  split; [exact Hr|]. split; [exact Hint|].
  exact (unreadable_retry_after_is_fatal None dated plain_int 0
           Sample.companies_url None 0 _ header Hr eq_refl
           (or_introl Hint)).
Defined.

Lemma sends_app a b : sends (a ++ b) = (sends a + sends b)%nat.
Proof.
  induction a as [|s a IH]; [reflexivity|].
  destruct s; cbn; now rewrite IH.
Qed.

Lemma on_exception_orderly user_agent u params (target : T answer) :
  (forall n, orderly user_agent u params n (target n)) ->
  forall k n, orderly user_agent u params n (on_exception k target n).
Proof.
  intros Htarget. induction k as [|k IH]; intros n;
    specialize (Htarget n); cbn [on_exception];
    destruct (target n) as [[r n1] ev1]; destruct r as [a|f|]; auto;
    destruct (is_RequestException f); auto.
  destruct (giveup f); auto.
  specialize (IH n1).
  destruct (on_exception k target n1) as [[r2 n2] ev2].
  destruct Htarget as (H1 & H2 & _ & _). destruct IH as (K1 & K2 & K3 & K4).
  unfold orderly, steps_of, served, result_of in *. cbn [fst snd] in *.
  split; [|split; [|split]]; auto.
  - apply Forall_app. split; [exact H1|]. now constructor.
  - rewrite sends_app. cbn [sends]. lia.
Qed.

Lemma attempt_orderly user_agent server int u params (again : T answer) :
  (forall n, orderly user_agent u params n (again n)) ->
  forall n,
    orderly user_agent u params n
      (attempt user_agent server int again u params n).
Proof.
  intros Hagain n. unfold attempt.
  assert (Hsent : same_request user_agent u params
                    (Sent u (or_empty params) user_agent))
    by (repeat split).
  assert (Hone : forall f,
             (forall code, f = BadStatus code -> is_error code) ->
             orderly user_agent u params n
               (Failed f, S n, [Sent u (or_empty params) user_agent])).
  { intros f Hf. unfold orderly, steps_of, served, result_of.
    cbn [fst snd sends]. split; [now repeat constructor|].
    split; [lia|]. split; [discriminate|].
    intros code [= ->]. now apply Hf. }
  destruct (server n u (or_empty params)) as [resp|];
    [|apply Hone; discriminate].
  destruct (retry_after resp) as [header|] eqn:Hh.
  - destruct (int header) as [seconds|]; [|apply Hone; discriminate].
    destruct (seconds <? 0)%Z; [apply Hone; discriminate|].
    specialize (Hagain (S n)).
    destruct (again (S n)) as [[r n'] ev].
    destruct Hagain as (H1 & H2 & H3 & H4).
    unfold orderly, steps_of, served, result_of in *. cbn [fst snd] in *.
    split; [|split; [|split]]; auto.
    + constructor; [exact Hsent|]. now constructor.
    + cbn [sends]. lia.
  - destruct (Z.leb_spec 400 (status resp)), (Z.ltb_spec (status resp) 600);
      cbn [andb];
      try (apply Hone; intros code [= <-]; unfold is_error; lia);
      unfold orderly, steps_of, served, result_of; cbn [fst snd sends];
      (split; [now repeat constructor|]);
      (split; [lia|]);
      (split; [|discriminate]);
      intros resp' [= <-]; (split; [exact Hh|]); unfold is_error; lia.
Qed.

(** X16: in every run of [request], however it ends: each request sent
    is the one the call was made for, the same URL, parameters and
    [User-Agent]; each request uses up one reply of the server; a response
    the call returns has no [Retry-After] header and a status outside
    400..599; and an [HTTPError] it raises has a status in 400..599. *)
Theorem request_is_orderly user_agent server int u fuel :
  forall params n,
    let r := request user_agent server int fuel u params n in
    Forall (same_request user_agent u params) (steps_of r) /\
    served r = (n + sends (steps_of r))%nat /\
    (forall resp, result_of r = Done resp ->
                  retry_after resp = None /\ ~ is_error (status resp)) /\
    (forall code, result_of r = Failed (BadStatus code) -> is_error code).
Proof.
  induction fuel as [|fuel IH]; intros params n.
  - unfold steps_of, served, result_of. cbn.
    split; [constructor|]. split; [lia|].
    split; intros; discriminate.
  - cbn [request]. apply on_exception_orderly. apply attempt_orderly.
    intros m. exact (IH (Some (or_empty params)) m).
Qed.

Lemma request_is_orderly_witness :
  let r := request None busy plain_int 3 Sample.companies_url None 0 in
  result_of r = Done ok /\
  served r = (0 + sends (steps_of r))%nat /\
  retry_after ok = None /\ ~ is_error (status ok).
Proof.
  intros r.
  assert (Hdone : result_of r = Done ok) by reflexivity.
  destruct (request_is_orderly None busy plain_int Sample.companies_url 3
              None 0) as (_ & Hserved & Hgood & _).
  split; [exact Hdone|]. split; [exact Hserved|].
  exact (Hgood ok Hdone).
Defined.

(** X17: [max_tries] counts the tries of one stretch only.  When the
    first reply is throttled and the nine after it fail for want of a
    response or with a 5xx status, the call made again after the sleep
    uses up its five tries, the call that was waiting takes its failure for
    the first of its own and makes four more: ten requests are sent before
    the failure is raised. *)
Theorem tries_start_over_after_a_throttle user_agent server int fuel u
    params n seconds :
  throttles int (server n u (or_empty params)) seconds ->
  (forall i, (1 <= i <= 9)%nat ->
             transient (server (n + i)%nat u (or_empty params)) <> None) ->
  let r := request user_agent server int (S (S fuel)) u params n in
  (exists f, result_of r = Failed f /\
             transient (server (n + 9)%nat u (or_empty params)) = Some f) /\
  served r = (n + 10)%nat /\
  sends (steps_of r) = 10%nat.
Proof.
  intros Hthrottled Hfail r.
  set (q := or_empty params) in *.
  set (sent := Sent u q user_agent).
  destruct (transient (server (n + 5)%nat u q)) as [f5|] eqn:H5;
    [|now elim (Hfail 5%nat); [lia|]].
  destruct (transient (server (n + 9)%nat u q)) as [f9|] eqn:H9;
    [|now elim (Hfail 9%nat); [lia|]].
  assert (Hinner : request user_agent server int (S fuel) u (Some q) (S n) =
                   (Failed f5, S (S n + 4), tries sent 4)).
  { cbn [request]. unfold max_tries. cbn [Nat.sub].
    apply retried_until_exhausted.
    - intros i Hi. cbn [or_empty].
      replace (S n + i)%nat with (n + S i)%nat by lia. apply Hfail. lia.
    - cbn [or_empty].
      now replace (S n + 4)%nat with (n + 5)%nat by lia. }
  set (target := attempt user_agent server int
                   (request user_agent server int (S fuel) u (Some q))
                   u params).
  assert (Hfirst : target n =
                   (Failed f5, S (S n + 4),
                    sent :: Slept seconds :: tries sent 4)).
  { unfold target.
    rewrite (attempt_throttled user_agent server int u params _ n seconds
               Hthrottled).
    now rewrite Hinner. }
  assert (Hrest : on_exception 3 target (S (S n + 4)) =
                  (Failed f9, S (S (S n + 4) + 3), tries sent 3)).
  { apply retried_until_exhausted.
    - intros i Hi. fold q.
      replace (S (S n + 4) + i)%nat with (n + (6 + i))%nat by lia.
      apply Hfail. lia.
    - fold q. now replace (S (S n + 4) + 3)%nat with (n + 9)%nat by lia. }
  destruct (transient_is_retried _ _ H5) as [Hre Hg].
  assert (Hrun : r = (Failed f9, S (S (S n + 4) + 3),
                      (sent :: Slept seconds :: tries sent 4) ++
                      BackedOff :: tries sent 3)).
  { unfold r.
    change (request user_agent server int (S (S fuel)) u params n)
      with (on_exception 4 target n).
    change (on_exception 4 target n) with
      (match target n with
       | (Failed f, n1, ev1) =>
           if is_RequestException f then
             if giveup f then (Failed f, n1, ev1)
             else
               match on_exception 3 target n1 with
               | (r, n2, ev2) => (r, n2, ev1 ++ BackedOff :: ev2)
               end
           else (Failed f, n1, ev1)
       | r => r
       end).
    now rewrite Hfirst, Hre, Hg, Hrest. }
  rewrite Hrun. unfold result_of, served, steps_of. cbn [fst snd].
  split; [now exists f9|]. split; [lia|]. reflexivity.
Qed.

Lemma tries_start_over_after_a_throttle_witness :
  let r := request None sinking plain_int 2 Sample.companies_url None 0 in
  throttles plain_int (sinking 0 Sample.companies_url (or_empty None)) 5 /\
  (forall i, (1 <= i <= 9)%nat ->
             transient (sinking (0 + i)%nat Sample.companies_url
                          (or_empty None)) <> None) /\
  result_of r = Failed (BadStatus 500) /\
  served r = 10%nat /\
  sends (steps_of r) = 10%nat.
Proof.
  intros r.
  assert (Hthrottled : throttles plain_int
                         (sinking 0 Sample.companies_url (or_empty None)) 5).
  { exists (Answer (Some "5") 429 []), "5".
    repeat split; cbv; discriminate. }
  assert (Hfail : forall i, (1 <= i <= 9)%nat ->
             transient (sinking (0 + i)%nat Sample.companies_url
                          (or_empty None)) <> None).
  { intros [|i] Hi; [lia | discriminate]. }
  destruct (tries_start_over_after_a_throttle None sinking plain_int 0
              Sample.companies_url None 0 5 Hthrottled Hfail)
    as ((f & Hf & _) & Hserved & Hsends).
  split; [exact Hthrottled|]. split; [exact Hfail|].
  split; [reflexivity|]. split; [exact Hserved | exact Hsends].
Defined.
End TransportFacts.
